(** * HttpClient: request preparation and response consumption

    A shallow embedding of [HttpClient] and [HttpResponse]
    (src/models/httpResponse.ts) and the properties of its request-dispatch
    pipeline: header-name normalisation, proxy bypass, authorization
    rewriting on a cloned header object, and the chunk-by-chunk consumption
    of a response. *)

From Stdlib Require Import ZArith QArith List Bool Ascii String Lia.
From stdpp Require Import base option list gmap.

Local Open Scope Z_scope.
Local Open Scope list_scope.

(** ** JavaScript strings

    A JavaScript string is a sequence of UTF-16 code units; [str] injects
    an ASCII literal. *)

Abbreviation jsstring := (list Z).

Definition str (s : string) : jsstring :=
  List.map (fun a => Z.of_N (N_of_ascii a)) (list_ascii_of_string s).

Fixpoint jseqb (a b : jsstring) : bool :=
  match a, b with
  | [], [] => true
  | x :: a', y :: b' => (x =? y) && jseqb a' b'
  | _, _ => false
  end.

(** [if (s)] on a string: only the empty string is falsy. *)
Definition truthy (s : jsstring) : bool :=
  match s with [] => false | _ :: _ => true end.

(** [if (x)] on [string | undefined | null]. *)
Definition truthy_opt (x : option jsstring) : bool :=
  match x with Some s => truthy s | None => false end.

(** The code units matched by the regular expression class [\s]. *)
Definition is_ws (c : Z) : bool :=
  ((9 <=? c) && (c <=? 13)) || (c =? 32) || (c =? 160) || (c =? 5760)
  || ((8192 <=? c) && (c <=? 8202)) || (c =? 8232) || (c =? 8233)
  || (c =? 8239) || (c =? 8287) || (c =? 12288) || (c =? 65279).

(** [s.split(/\s+/)]: the string is cut at every maximal run of white
    space; a run at either end leaves an empty first or last element, and
    the empty string gives one empty element.  [tok] is the current piece
    in reverse, [in_run] tells whether the previous unit was white space. *)
Fixpoint split_ws_go (tok : jsstring) (in_run : bool) (s : jsstring)
  : list jsstring :=
  match s with
  | [] => [rev tok]
  | c :: s' =>
      if is_ws c then
        if in_run then split_ws_go tok true s'
        else rev tok :: split_ws_go [] true s'
      else split_ws_go (c :: tok) false s'
  end.

Definition split_ws (s : jsstring) : list jsstring := split_ws_go [] false s.

(** [s.split(sep)] for a one-unit separator: every occurrence cuts. *)
Fixpoint split_on_go (sep : Z) (tok : jsstring) (s : jsstring)
  : list jsstring :=
  match s with
  | [] => [rev tok]
  | c :: s' =>
      if c =? sep then rev tok :: split_on_go sep [] s'
      else split_on_go sep (c :: tok) s'
  end.

Definition split_on (sep : Z) (s : jsstring) : list jsstring :=
  split_on_go sep [] s.

Definition colon : Z := 58.

(** [s.includes(c)] for a one-unit needle. *)
Definition includes (c : Z) (s : jsstring) : bool :=
  existsb (fun x => x =? c) s.

(** [parts.join(sep)]. *)
Fixpoint join (sep : jsstring) (parts : list jsstring) : jsstring :=
  match parts with
  | [] => []
  | [p] => p
  | p :: ps => p ++ sep ++ join sep ps
  end.

(** ** Plain objects used as dictionaries

    An object literal [{}] has own properties, listed here in creation
    order, and inherits the members of [Object.prototype].  The [in]
    operator and a property read see both; an assignment creates or
    updates an own property, except under the key [__proto__], whose
    inherited setter ignores a string. *)

Abbreviation obj := (list (jsstring * jsstring)).

Fixpoint own_get {V : Type} (k : jsstring) (o : list (jsstring * V))
  : option V :=
  match o with
  | [] => None
  | (k', v) :: o' => if jseqb k k' then Some v else own_get k o'
  end.

Fixpoint own_put (k v : jsstring) (o : obj) : obj :=
  match o with
  | [] => [(k, v)]
  | (k', v') :: o' =>
      if jseqb k k' then (k', v) :: o' else (k', v') :: own_put k v o'
  end.

Definition proto_names : list jsstring :=
  List.map str
    ["constructor"; "__defineGetter__"; "__defineSetter__"; "hasOwnProperty";
     "__lookupGetter__"; "__lookupSetter__"; "isPrototypeOf";
     "propertyIsEnumerable"; "toString"; "valueOf"; "__proto__";
     "toLocaleString"]%string.

Definition inherited (k : jsstring) : bool := existsb (jseqb k) proto_names.

(** What a property read can give on a dictionary of strings. *)
Inductive jsval :=
  | VUndefined
  | VString (s : jsstring)
  | VInherited (name : jsstring).

Definition js_in (k : jsstring) (o : obj) : bool :=
  match own_get k o with Some _ => true | None => inherited k end.

Definition js_get (k : jsstring) (o : obj) : jsval :=
  match own_get k o with
  | Some v => VString v
  | None => if inherited k then VInherited k else VUndefined
  end.

Definition js_set (k v : jsstring) (o : obj) : obj :=
  if jseqb k (str "__proto__") then o else own_put k v o.

(** The property key an inherited member turns into when it is used as
    one: the source text of a built-in function, or [[object Object]] for
    the prototype object itself. *)
Definition inherited_key (name : jsstring) : jsstring :=
  if jseqb name (str "__proto__") then str "[object Object]"
  else if jseqb name (str "constructor")
       then str "function Object() { [native code] }"
       else str "function " ++ name ++ str "() { [native code] }".

(** [Object.assign(target, source)]: every own property of [source] is
    assigned on [target], in order. *)
Definition object_assign (target source : obj) : obj :=
  fold_left (fun t kv => js_set (fst kv) (snd kv) t) source target.

(** ** The platform

    [toLowerCase] is the built-in of the language. *)

Class JSRuntime := {
  toLowerCase : jsstring -> jsstring
}.

Section NormalizeHeaderNames.
Context `{JSRuntime}.

(** The reducer of [rawHeaders.reduce(...)]: the first raw name of each
    lower-cased form is recorded. *)
Definition headersDic_step (prev : obj) (cur : jsstring) : obj :=
  if js_in (toLowerCase cur) prev then prev
  else js_set (toLowerCase cur) cur prev.

Definition headersDic (rawHeaders : list jsstring) : obj :=
  fold_left headersDic_step rawHeaders [].

(** [headersDic[header] || header], as the property key it is used for. *)
Definition adjustedHeaderName (dic : obj) (header : jsstring) : jsstring :=
  match js_get header dic with
  | VString s => if truthy s then s else header
  | VInherited name => inherited_key name
  | VUndefined => header
  end.

(** [headers] is given as the sequence [for (const header in headers)]
    visits. *)
Definition normalizeHeaderNames (headers : obj) (rawHeaders : list jsstring)
  : obj :=
  let dic := headersDic rawHeaders in
  fold_left
    (fun adjusted kv => js_set (adjustedHeaderName dic (fst kv)) (snd kv) adjusted)
    headers [].

End NormalizeHeaderNames.

(** ** Proxy bypass *)

(** The fields of [url.parse(...)] the client reads; [None] is [null]. *)
Record Url := {
  protocol : option jsstring;
  host : option jsstring;
  hostname : option jsstring;
  port : option jsstring
}.

Class NodeUrl := {
  url_parse : jsstring -> Url
}.

(** [Array.from(new Set(xs))]: the first occurrence of each element, in
    order. *)
Fixpoint set_from_go (seen xs : list jsstring) : list jsstring :=
  match xs with
  | [] => []
  | x :: xs' =>
      if existsb (jseqb x) seen then set_from_go seen xs'
      else x :: set_from_go (x :: seen) xs'
  end.

Definition array_from_set (xs : list jsstring) : list jsstring :=
  set_from_go [] xs.

(** [a === b] between a string and a [string | undefined]. *)
Definition strict_eq (a : jsstring) (b : option jsstring) : bool :=
  match b with Some b' => jseqb a b' | None => false end.

(** The body of the [for] loop of [ignoreProxy]: does the entry [eh] let
    the loop return [true]? *)
Definition exclude_entry_matches (hostName port : option jsstring)
  (eh : jsstring) : bool :=
  let urlParts := split_on colon eh in
  if negb (truthy_opt port) then
    (length urlParts =? 1)%nat && strict_eq (nth 0 urlParts []) hostName
  else
    let ph := nth 0 urlParts [] in
    let pp := nth_error urlParts 1 in
    strict_eq ph hostName && (negb (truthy_opt pp) || strict_eq (default [] pp) port).

Fixpoint ignoreProxy_loop (hostName port : option jsstring)
  (excludeHostsProxyList : list jsstring) : bool :=
  match excludeHostsProxyList with
  | [] => false
  | eh :: rest =>
      if exclude_entry_matches hostName port eh then true
      else ignoreProxy_loop hostName port rest
  end.

Section IgnoreProxy.
Context `{JSRuntime} `{NodeUrl}.

Definition ignoreProxy (requestUrl : jsstring)
  (excludeHostsForProxy : list jsstring) : bool :=
  match excludeHostsForProxy with
  | [] => false
  | _ :: _ =>
      let resolvedUrl := url_parse requestUrl in
      let hostName := option_map toLowerCase (hostname resolvedUrl) in
      let port := port resolvedUrl in
      let excludeHostsProxyList :=
        array_from_set (List.map toLowerCase excludeHostsForProxy) in
      ignoreProxy_loop hostName port excludeHostsProxyList
  end.

End IgnoreProxy.

(** ** Escaped unicode characters *)

Definition is_hex (c : Z) : bool :=
  ((48 <=? c) && (c <=? 57)) || ((65 <=? c) && (c <=? 70))
  || ((97 <=? c) && (c <=? 102)).

Definition hex_value (c : Z) : Z :=
  if c <=? 57 then c - 48 else if c <=? 70 then c - 55 else c - 87.

(** [parseInt(g, 16)] on four hexadecimal digits. *)
Definition parseInt16 (a b c d : Z) : Z :=
  ((hex_value a * 16 + hex_value b) * 16 + hex_value c) * 16 + hex_value d.

(** [body.replace(/\\u([0-9a-fA-F]{4})/gi, ...)]: every backslash, [u] or
    [U], and four hexadecimal digits becomes the code unit they name; a
    double quote is written back escaped. *)
Fixpoint decodeEscapedUnicodeCharacters (body : jsstring) : jsstring :=
  match body with
  | [] => []
  | c :: rest =>
      match rest with
      | u :: d1 :: d2 :: d3 :: d4 :: rest' =>
          if (c =? 92) && ((u =? 117) || (u =? 85))
             && is_hex d1 && is_hex d2 && is_hex d3 && is_hex d4
          then
            let char := parseInt16 d1 d2 d3 d4 in
            (if char =? 34 then [92; 34] else [char])
              ++ decodeEscapedUnicodeCharacters rest'
          else c :: decodeEscapedUnicodeCharacters rest
      | _ => c :: decodeEscapedUnicodeCharacters rest
      end
  end.

(** ** Request preparation ([prepareOptions])

    Header objects live in a store and are named by references, so that
    the header object of the logical request and the clone the options
    carry are told apart. *)

Abbreviation loc := positive.
Abbreviation store := (gmap positive obj).
Abbreviation Buffer := (list Byte.byte).

(** A request body is a string or a readable stream; a stream is
    represented by the bytes [convertStreamToBuffer] reads from it. *)
Inductive RequestBody :=
  | BodyString (s : jsstring)
  | BodyStream (content : Buffer).

Inductive MaterializedBody :=
  | MString (s : jsstring)
  | MBuffer (b : Buffer).

Record HttpRequest := {
  r_method : jsstring;
  r_url : jsstring;
  r_headers : loc;
  r_body : option RequestBody;
  r_rawBody : option jsstring;
  r_name : option jsstring
}.

Record HostCertificate := {
  hc_cert : option jsstring;
  hc_key : option jsstring;
  hc_pfx : option jsstring;
  hc_passphrase : option jsstring
}.

Record Settings := {
  followRedirect : bool;
  timeoutInMilliseconds : Z;
  rememberCookiesForSubsequentRequests : bool;
  proxy : option jsstring;
  excludeHostsForProxy : list jsstring;
  proxyStrictSSL : bool;
  decodeEscapedUnicode : bool;
  hostCertificates : list (jsstring * HostCertificate)
}.

Record Certificate := {
  cert : option Buffer;
  key : option Buffer;
  pfx : option Buffer;
  passphrase : option jsstring
}.

(** The numbers [Number(...)] gives for the port of a URL: an integral
    value of a double, infinity, or the value of [Number] on a string
    that is not a run of decimal digits, which is left as it is. *)
Inductive js_number :=
  | Finite (n : Z)
  | Infinity
  | NumberOf (s : jsstring).

(** The agent built by [http-proxy-agent] or [https-proxy-agent]. *)
Record Agent := {
  a_for_http : bool;
  a_host : option jsstring;
  a_port : js_number;
  a_rejectUnauthorized : bool
}.

(** What a call that can throw gives. *)
Inductive failure :=
  | TypeError
  | PromiseRejected
  | FileSystemError.

Inductive attempt (A : Type) :=
  | Returned (a : A)
  | Raised (e : failure).
Arguments Returned {A} a.
Arguments Raised {A} e.

(** The helpers of [utils/misc] the client calls on a header object. *)
Class HeaderUtil := {
  getHeader : obj -> jsstring -> option jsstring;
  removeHeader : obj -> jsstring -> obj;
  getContentType : obj -> option jsstring
}.

(** The three authentication collaborators; [awsCognito] is awaited and
    gives no hook when its promise rejects. *)
Class AuthHooks := {
  hook : Type;
  digest : jsstring -> jsstring -> hook;
  awsSignature : jsstring -> hook;
  awsCognito : jsstring -> option hook
}.

(** What [resolveCertificate] does for a configured path, after
    resolving it against the workspace or the current file: it returns
    the bytes of the file, returns nothing when the file is missing, or
    throws when reading the file throws. *)
Class CertificateFiles := {
  certificate_file : jsstring -> attempt (option Buffer)
}.

Definition resolveCertificate `{CertificateFiles}
  (absoluteOrRelativePath : option jsstring) : attempt (option Buffer) :=
  match absoluteOrRelativePath with
  | None => Returned None
  | Some path => certificate_file path
  end.

(** *** A state and error monad over the store *)

Inductive outcome (A : Type) :=
  | Fulfilled (a : A) (s : store)
  | Thrown (e : failure).
Arguments Fulfilled {A} a s.
Arguments Thrown {A} e.

Definition M (A : Type) : Type := store -> outcome A.

Definition ret {A} (a : A) : M A := fun s => Fulfilled a s.

Definition bind {A B} (m : M A) (f : A -> M B) : M B :=
  fun s => match m s with
           | Fulfilled a s' => f a s'
           | Thrown e => Thrown e
           end.

Definition throw {A} (e : failure) : M A := fun _ => Thrown e.

(** The properties of the object a reference names. *)
Definition read (l : loc) : M obj := fun s => Fulfilled (default [] (s !! l)) s.

Definition write (l : loc) (o : obj) : M unit :=
  fun s => Fulfilled tt (<[l := o]> s).

(** A new object, under a reference the store does not use yet. *)
Definition alloc (o : obj) : M loc :=
  fun s => let l := fresh (dom s) in Fulfilled l (<[l := o]> s).

Notation "'let!' x := m 'in' k" := (bind m (fun x => k))
  (at level 10, x name, m at level 100, k at level 200).

Section PrepareOptions.
Context `{JSRuntime} `{NodeUrl} `{HeaderUtil} `{AuthHooks} `{CertificateFiles}.

Record Options := {
  o_headers : loc;
  o_method : jsstring;
  o_body : option MaterializedBody;
  o_decompress : bool;
  o_followRedirect : bool;
  o_throwHttpErrors : bool;
  o_retry : Z;
  o_afterResponse : list hook;
  o_beforeRequest : list hook;
  o_rejectUnauthorized : bool;
  o_timeout : option Z;
  o_cookieJar : bool;
  o_username : option jsstring;
  o_password : option jsstring;
  o_certificate : option Certificate;
  o_agent : option Agent
}.

Definition set_timeout (t : Z) (o : Options) : Options :=
  {| o_headers := o_headers o; o_method := o_method o; o_body := o_body o;
     o_decompress := o_decompress o; o_followRedirect := o_followRedirect o;
     o_throwHttpErrors := o_throwHttpErrors o; o_retry := o_retry o;
     o_afterResponse := o_afterResponse o;
     o_beforeRequest := o_beforeRequest o;
     o_rejectUnauthorized := o_rejectUnauthorized o;
     o_timeout := Some t; o_cookieJar := o_cookieJar o;
     o_username := o_username o; o_password := o_password o;
     o_certificate := o_certificate o; o_agent := o_agent o |}.

Definition set_cookieJar (o : Options) : Options :=
  {| o_headers := o_headers o; o_method := o_method o; o_body := o_body o;
     o_decompress := o_decompress o; o_followRedirect := o_followRedirect o;
     o_throwHttpErrors := o_throwHttpErrors o; o_retry := o_retry o;
     o_afterResponse := o_afterResponse o;
     o_beforeRequest := o_beforeRequest o;
     o_rejectUnauthorized := o_rejectUnauthorized o;
     o_timeout := o_timeout o; o_cookieJar := true;
     o_username := o_username o; o_password := o_password o;
     o_certificate := o_certificate o; o_agent := o_agent o |}.

Definition set_credentials (username password : option jsstring)
  (o : Options) : Options :=
  {| o_headers := o_headers o; o_method := o_method o; o_body := o_body o;
     o_decompress := o_decompress o; o_followRedirect := o_followRedirect o;
     o_throwHttpErrors := o_throwHttpErrors o; o_retry := o_retry o;
     o_afterResponse := o_afterResponse o;
     o_beforeRequest := o_beforeRequest o;
     o_rejectUnauthorized := o_rejectUnauthorized o;
     o_timeout := o_timeout o; o_cookieJar := o_cookieJar o;
     o_username := username; o_password := password;
     o_certificate := o_certificate o; o_agent := o_agent o |}.

Definition push_afterResponse (h : hook) (o : Options) : Options :=
  {| o_headers := o_headers o; o_method := o_method o; o_body := o_body o;
     o_decompress := o_decompress o; o_followRedirect := o_followRedirect o;
     o_throwHttpErrors := o_throwHttpErrors o; o_retry := o_retry o;
     o_afterResponse := o_afterResponse o ++ [h];
     o_beforeRequest := o_beforeRequest o;
     o_rejectUnauthorized := o_rejectUnauthorized o;
     o_timeout := o_timeout o; o_cookieJar := o_cookieJar o;
     o_username := o_username o; o_password := o_password o;
     o_certificate := o_certificate o; o_agent := o_agent o |}.

Definition push_beforeRequest (h : hook) (o : Options) : Options :=
  {| o_headers := o_headers o; o_method := o_method o; o_body := o_body o;
     o_decompress := o_decompress o; o_followRedirect := o_followRedirect o;
     o_throwHttpErrors := o_throwHttpErrors o; o_retry := o_retry o;
     o_afterResponse := o_afterResponse o;
     o_beforeRequest := o_beforeRequest o ++ [h];
     o_rejectUnauthorized := o_rejectUnauthorized o;
     o_timeout := o_timeout o; o_cookieJar := o_cookieJar o;
     o_username := o_username o; o_password := o_password o;
     o_certificate := o_certificate o; o_agent := o_agent o |}.

Definition set_certificate (c : Certificate) (o : Options) : Options :=
  {| o_headers := o_headers o; o_method := o_method o; o_body := o_body o;
     o_decompress := o_decompress o; o_followRedirect := o_followRedirect o;
     o_throwHttpErrors := o_throwHttpErrors o; o_retry := o_retry o;
     o_afterResponse := o_afterResponse o;
     o_beforeRequest := o_beforeRequest o;
     o_rejectUnauthorized := o_rejectUnauthorized o;
     o_timeout := o_timeout o; o_cookieJar := o_cookieJar o;
     o_username := o_username o; o_password := o_password o;
     o_certificate := Some c; o_agent := o_agent o |}.

Definition set_agent (a : Agent) (o : Options) : Options :=
  {| o_headers := o_headers o; o_method := o_method o; o_body := o_body o;
     o_decompress := o_decompress o; o_followRedirect := o_followRedirect o;
     o_throwHttpErrors := o_throwHttpErrors o; o_retry := o_retry o;
     o_afterResponse := o_afterResponse o;
     o_beforeRequest := o_beforeRequest o;
     o_rejectUnauthorized := o_rejectUnauthorized o;
     o_timeout := o_timeout o; o_cookieJar := o_cookieJar o;
     o_username := o_username o; o_password := o_password o;
     o_certificate := o_certificate o; o_agent := Some a |}.


(** [removeHeader(options.headers, 'Authorization')]: the object the
    options refer to is changed in place. *)
Definition removeAuthorization (options : Options) : M unit :=
  let! h := read (o_headers options) in
  write (o_headers options) (removeHeader h (str "Authorization")).

(** The [// TODO: refactor auth] block. *)
Definition applyAuthorization (options : Options) : M Options :=
  let! h := read (o_headers options) in
  match getHeader h (str "Authorization") with
  | None => ret options
  | Some authorization =>
      if negb (truthy authorization) then ret options
      else
        match split_ws authorization with
        | [] => throw TypeError
        | scheme :: rest =>
            let normalizedScheme := toLowerCase scheme in
            match rest with
            | user :: ((_ :: _) as args) =>
                let pass := join (str " ") args in
                if jseqb normalizedScheme (str "basic") then
                  let! _ := removeAuthorization options in
                  ret (set_credentials (Some user) (Some pass) options)
                else if jseqb normalizedScheme (str "digest") then
                  let! _ := removeAuthorization options in
                  ret (push_afterResponse (digest user pass) options)
                else if jseqb normalizedScheme (str "aws") then
                  let! _ := removeAuthorization options in
                  ret (push_beforeRequest (awsSignature authorization) options)
                else if jseqb normalizedScheme (str "cognito") then
                  let! _ := removeAuthorization options in
                  match awsCognito authorization with
                  | Some h' => ret (push_beforeRequest h' options)
                  | None => throw PromiseRejected
                  end
                else ret options
            | _ =>
                if jseqb normalizedScheme (str "basic") then
                  match rest with
                  | [] => throw TypeError
                  | user :: _ =>
                      if includes colon user then
                        let! _ := removeAuthorization options in
                        let parts := split_on colon user in
                        ret (set_credentials (nth_error parts 0)
                               (nth_error parts 1) options)
                      else ret options
                  end
                else ret options
            end
        end
  end.

(** The three calls of [resolveCertificate], in the order of the
    source; the first that throws ends [getRequestCertificate]. *)
Definition resolveCertificates (certPath keyPath pfxPath : option jsstring)
  (passphrase : option jsstring) : attempt (option Certificate) :=
  match resolveCertificate certPath with
  | Raised e => Raised e
  | Returned cert =>
      match resolveCertificate keyPath with
      | Raised e => Raised e
      | Returned key =>
          match resolveCertificate pfxPath with
          | Raised e => Raised e
          | Returned pfx =>
              Returned
                (Some {| cert := cert; key := key; pfx := pfx;
                         passphrase := passphrase |})
          end
      end
  end.

(** For a host that is the name of a member of [Object.prototype] and has
    no entry of its own, [host in settings.hostCertificates] is true and
    the four fields read from the inherited member are undefined. *)
Definition getRequestCertificate (requestUrl : jsstring)
  (settings : Settings) : attempt (option Certificate) :=
  match host (url_parse requestUrl) with
  | None => Returned None
  | Some h =>
      if negb (truthy h) then Returned None
      else
        match own_get h (hostCertificates settings) with
        | Some hc =>
            resolveCertificates (hc_cert hc) (hc_key hc) (hc_pfx hc)
              (hc_passphrase hc)
        | None =>
            if inherited h then resolveCertificates None None None None
            else Returned None
        end
  end.

Fixpoint starts_with (prefix s : jsstring) : bool :=
  match prefix, s with
  | [], _ => true
  | p :: prefix', c :: s' => (p =? c) && starts_with prefix' s'
  | _ :: _, [] => false
  end.

(** The double nearest to the natural number [n], ties to the even
    significand of 53 bits, and infinity from 2^1024 on. *)
Definition round_to_double (n : Z) : js_number :=
  let bits := Z.log2 n + 1 in
  if bits <=? 53 then Finite n
  else
    let e := bits - 53 in
    let q := Z.shiftr n e in
    let r := Z.land n (Z.ones e) in
    let half := Z.shiftl 1 (e - 1) in
    let q' := if (half <? r) || ((r =? half) && Z.odd q) then q + 1 else q in
    let v := Z.shiftl q' e in
    if Z.shiftl 1 1024 <=? v then Infinity else Finite v.

Definition decimal_value (s : jsstring) : Z :=
  fold_left (fun n c => n * 10 + (c - 48)) s 0.

(** [Number(port)] for the port of a parsed URL: [null] and the empty
    string give 0, a run of decimal digits the double nearest to its
    value. *)
Definition number_of_port (p : option jsstring) : js_number :=
  match p with
  | None => Finite 0
  | Some s =>
      if forallb (fun c => (48 <=? c) && (c <=? 57)) s
      then round_to_double (decimal_value s)
      else NumberOf s
  end.

(** The body is read into memory before the request is issued. *)
Definition materialize (b : option RequestBody) : option MaterializedBody :=
  match b with
  | Some (BodyString s) => if truthy s then Some (MString s) else None
  | Some (BodyStream content) => Some (MBuffer content)
  | None => None
  end.

(** The object literal [options] starts as, with the timeout and the
    cookie jar the settings ask for. *)
Definition initial_options (httpRequest : HttpRequest) (settings : Settings)
  (clonedHeaders : loc) : Options :=
  let options :=
    {| o_headers := clonedHeaders;
       o_method := r_method httpRequest;
       o_body := materialize (r_body httpRequest);
       o_decompress := true;
       o_followRedirect := followRedirect settings;
       o_throwHttpErrors := false;
       o_retry := 0;
       o_afterResponse := [];
       o_beforeRequest := [];
       o_rejectUnauthorized := false;
       o_timeout := None;
       o_cookieJar := false;
       o_username := None;
       o_password := None;
       o_certificate := None;
       o_agent := None |} in
  let options :=
    if 0 <? timeoutInMilliseconds settings
    then set_timeout (timeoutInMilliseconds settings) options else options in
  if rememberCookiesForSubsequentRequests settings
  then set_cookieJar options else options.

(** [Object.assign(options, certificate)]. *)
Definition assign_certificate (certificate : option Certificate)
  (options : Options) : Options :=
  match certificate with
  | Some c => set_certificate c options
  | None => options
  end.

(** [// set certificate]: reading a certificate file can throw, and then
    [prepareOptions] is rejected. *)
Definition applyCertificate (httpRequest : HttpRequest) (settings : Settings)
  (options : Options) : M Options :=
  match getRequestCertificate (r_url httpRequest) settings with
  | Returned certificate => ret (assign_certificate certificate options)
  | Raised e => throw e
  end.

(** [// set proxy]. *)
Definition applyProxy (httpRequest : HttpRequest) (settings : Settings)
  (options : Options) : Options :=
  if truthy_opt (proxy settings)
     && negb (ignoreProxy (r_url httpRequest) (excludeHostsForProxy settings))
  then
    let proxyEndpoint := url_parse (default [] (proxy settings)) in
    let proto := default [] (protocol proxyEndpoint) in
    if jseqb proto (str "http:") || jseqb proto (str "https:") then
      set_agent
        {| a_for_http := starts_with (str "http:") (r_url httpRequest);
           a_host := hostname proxyEndpoint;
           a_port := number_of_port (port proxyEndpoint);
           a_rejectUnauthorized := proxyStrictSSL settings |}
        options
    else options
  else options.

Definition prepareOptions (httpRequest : HttpRequest) (settings : Settings)
  : M Options :=
  let! original := read (r_headers httpRequest) in
  let! clonedHeaders := alloc (object_assign [] original) in
  let options := initial_options httpRequest settings clonedHeaders in
  let! options := applyAuthorization options in
  let! options := applyCertificate httpRequest settings options in
  let options := applyProxy httpRequest settings options in
  ret options.

End PrepareOptions.

(** ** Response consumption ([send]) *)

Record MimeType := {
  essence : jsstring;
  charset : option jsstring
}.

Class MimeUtility := {
  mime_parse : jsstring -> MimeType
}.

(** [iconv-lite], and [Buffer.prototype.toString]. *)
Class Iconv := {
  encodingExists : jsstring -> bool;
  iconv_decode : Buffer -> jsstring -> jsstring;
  buffer_toString : Buffer -> jsstring
}.

(** The transport's response: [rawHeaders] lists names and values
    alternately, [headers] has the lower-cased names. *)
Record IncomingMessage := {
  rawHeaders : list jsstring;
  headers : obj;
  statusCode : Z;
  statusMessage : jsstring;
  httpVersion : jsstring;
  timings_phases : list (jsstring * Z);
  request_options_headers : obj
}.

(** The request echoed in the result. *)
Record EchoRequest := {
  e_method : jsstring;
  e_url : jsstring;
  e_headers : obj;
  e_body : option RequestBody;
  e_rawBody : option jsstring;
  e_name : option jsstring
}.

Record HttpResponse := {
  res_statusCode : Z;
  res_statusMessage : jsstring;
  res_httpVersion : jsstring;
  res_headers : obj;
  body : jsstring;
  bodySizeInBytes : Z;
  headersSizeInBytes : Q;
  bodyBuffer : Buffer;
  timingPhases : list (jsstring * Z);
  request : EchoRequest;
  rawResponse : IncomingMessage
}.

(** What the handlers of [send] read from the request and the settings. *)
Record SendContext := {
  requestUrl : jsstring;
  sc_method : jsstring;
  sc_body : option MaterializedBody;
  requestHeaderNames : list jsstring;
  sc_rawBody : option jsstring;
  sc_name : option jsstring;
  sc_decodeEscaped : bool
}.

(** The variables of [send] that its handlers close over. *)
Record Locals := {
  bodySize : Z;
  headersSize : Q
}.

Definition initial_locals : Locals := {| bodySize := 0; headersSize := 0%Q |}.

(** The state of one response: the variables of the [response] handler
    ([encoding], [bodyBuffer_local]), the result object it built, whether
    an [end] listener was registered and whether the promise of [send] is
    resolved. *)
Record Consumer := {
  locals : Locals;
  encoding : jsstring;
  bodyBuffer_local : Buffer;
  httpResponse : HttpResponse;
  end_listener : bool;
  resolved : bool
}.

Inductive stream_event :=
  | Data (chunk : Buffer)
  | End.

Section Send.
Context `{JSRuntime} `{HeaderUtil} `{MimeUtility} `{Iconv}.

(** The getters of [HttpResponse]. *)
Definition contentType (r : HttpResponse) : option jsstring :=
  getContentType (res_headers r).

Definition response_essence (r : HttpResponse) : option jsstring :=
  match contentType r with
  | Some ct => if truthy ct then Some (essence (mime_parse ct)) else None
  | None => None
  end.

Definition event_stream : jsstring := str "text/event-stream".

(** [rawHeaders.map((h) => h.length).reduce((a, b) => a + b, 0)]. *)
Definition rawHeaders_length_sum (raw : list jsstring) : Z :=
  fold_left Z.add (List.map (fun h => Z.of_nat (length h)) raw) 0.

(** The handler of the [response] event.  [rawHeaders] is an array, and
    an array is truthy even when empty, so its guard is always passed. *)
Definition on_response (ctx : SendContext) (l : Locals)
  (response : IncomingMessage) : Consumer :=
  let headersSize1 :=
    (headersSize l + inject_Z (rawHeaders_length_sum (rawHeaders response)))%Q in
  let headersSize2 :=
    (headersSize1
     + inject_Z (Z.of_nat (length (rawHeaders response))) / inject_Z 2)%Q in
  let contentType := own_get (str "content-type") (headers response) in
  let encoding :=
    match contentType with
    | Some ct => if truthy ct then charset (mime_parse ct) else None
    | None => None
    end in
  let encoding :=
    if truthy_opt encoding then default [] encoding else str "utf8" in
  let bodyBuffer : Buffer := [] in
  let responseHeaders :=
    normalizeHeaderNames (headers response) (rawHeaders response) in
  let httpResponse :=
    {| res_statusCode := statusCode response;
       res_statusMessage := statusMessage response;
       res_httpVersion := httpVersion response;
       res_headers := responseHeaders;
       body := [];
       bodySizeInBytes := bodySize l;
       headersSizeInBytes := headersSize2;
       bodyBuffer := bodyBuffer;
       timingPhases := timings_phases response;
       request :=
         {| e_method := sc_method ctx;
            e_url := requestUrl ctx;
            e_headers :=
              normalizeHeaderNames (request_options_headers response)
                (requestHeaderNames ctx);
            e_body :=
              match sc_body ctx with
              | Some (MBuffer b) => Some (BodyStream b)
              | Some (MString s) => Some (BodyString s)
              | None => None
              end;
            e_rawBody := sc_rawBody ctx;
            e_name := sc_name ctx |};
       rawResponse := response |} in
  let streaming :=
    match response_essence httpResponse with
    | Some e => jseqb e event_stream
    | None => false
    end in
  {| locals := {| bodySize := bodySize l; headersSize := headersSize2 |};
     encoding := encoding;
     bodyBuffer_local := bodyBuffer;
     httpResponse := httpResponse;
     end_listener := negb streaming;
     resolved := streaming |}.

(** The text a chunk contributes to the body. *)
Definition chunk_text (ctx : SendContext) (encoding : jsstring)
  (chunk : Buffer) : jsstring :=
  let bodyString :=
    if encodingExists encoding then iconv_decode chunk encoding
    else buffer_toString chunk in
  if sc_decodeEscaped ctx then decodeEscapedUnicodeCharacters bodyString
  else bodyString.

(** The handler of the [data] event. *)
Definition on_data (ctx : SendContext) (chunk : Buffer) (c : Consumer)
  : Consumer :=
  let bodySize' := bodySize (locals c) + Z.of_nat (length chunk) in
  let bodyString := chunk_text ctx (encoding c) chunk in
  let r := httpResponse c in
  {| locals := {| bodySize := bodySize'; headersSize := headersSize (locals c) |};
     encoding := encoding c;
     bodyBuffer_local := bodyBuffer_local c;
     httpResponse :=
       {| res_statusCode := res_statusCode r;
          res_statusMessage := res_statusMessage r;
          res_httpVersion := res_httpVersion r;
          res_headers := res_headers r;
          body := body r ++ bodyString;
          bodySizeInBytes := bodySize';
          headersSizeInBytes := headersSizeInBytes r;
          bodyBuffer := bodyBuffer_local c ++ chunk;
          timingPhases := timingPhases r;
          request := request r;
          rawResponse := rawResponse r |};
     end_listener := end_listener c;
     resolved := resolved c |}.

(** The handler of the [end] event, when one was registered. *)
Definition on_end (c : Consumer) : Consumer :=
  {| locals := locals c;
     encoding := encoding c;
     bodyBuffer_local := bodyBuffer_local c;
     httpResponse := httpResponse c;
     end_listener := end_listener c;
     resolved := resolved c || end_listener c |}.

Definition on_event (ctx : SendContext) (c : Consumer) (e : stream_event)
  : Consumer :=
  match e with
  | Data chunk => on_data ctx chunk c
  | End => on_end c
  end.

(** The events of one response, handled in arrival order. *)
Definition consume (ctx : SendContext) (c : Consumer)
  (events : list stream_event) : Consumer :=
  fold_left (on_event ctx) events c.

Definition send_response (ctx : SendContext) (response : IncomingMessage)
  (events : list stream_event) : Consumer :=
  consume ctx (on_response ctx initial_locals response) events.

End Send.

(** ** A small platform

    Executable stand-ins for the platform, enough to run the client on
    plain ASCII requests and UTF-8 responses. *)

Definition lower_unit (c : Z) : Z :=
  if (65 <=? c) && (c <=? 90) then c + 32 else c.

(** [toLowerCase] as it acts on the Basic Latin block. *)
Definition basic_latin : JSRuntime :=
  {| toLowerCase := List.map lower_unit |}.

(** The longest prefix without a unit satisfying [p], and what follows. *)
Fixpoint break_at (p : Z -> bool) (s : jsstring) : jsstring * jsstring :=
  match s with
  | [] => ([], [])
  | c :: s' =>
      if p c then ([], s)
      else let r := break_at p s' in (c :: fst r, snd r)
  end.

(** [url.parse] on URLs of the form [scheme://host[:port][/...]]. *)
Definition simple_url_parse (u : jsstring) : Url :=
  let sr := break_at (fun c => c =? colon) u in
  match snd sr with
  | 58 :: 47 :: 47 :: after =>
      let authority :=
        List.map lower_unit
          (fst (break_at (fun c => (c =? 47) || (c =? 63) || (c =? 35)) after)) in
      let hp := break_at (fun c => c =? colon) authority in
      let digits := match snd hp with _ :: d => d | [] => [] end in
      {| protocol := Some (List.map lower_unit (fst sr) ++ [colon]);
         host := Some (if truthy digits then authority else fst hp);
         hostname := Some (fst hp);
         port := if truthy digits then Some digits else None |}
  | _ =>
      {| protocol := None; host := None; hostname := None; port := None |}
  end.

Definition simple_url : NodeUrl := {| url_parse := simple_url_parse |}.

Section SpecHeaderUtil.
Context `{JSRuntime}.

Definition same_header_name (name : jsstring) (kv : jsstring * jsstring)
  : bool :=
  jseqb (toLowerCase (fst kv)) (toLowerCase name).

(** Modelled from the spec: [getHeader] of utils/misc, which is not among
    the sources; the lookup of a header by name is case-insensitive. *)
Definition spec_getHeader (o : obj) (name : jsstring) : option jsstring :=
  option_map snd (List.find (same_header_name name) o).

(** Modelled from the spec: [removeHeader] of utils/misc, which is not
    among the sources; after it no header of that name remains. *)
Definition spec_removeHeader (o : obj) (name : jsstring) : obj :=
  List.filter (fun kv => negb (same_header_name name kv)) o.

(** Modelled from the spec: [getContentType] of utils/misc, which is not
    among the sources; it is the value of the content-type header. *)
Definition spec_getContentType (o : obj) : option jsstring :=
  spec_getHeader o (str "content-type").

Definition spec_header_util : HeaderUtil :=
  {| getHeader := spec_getHeader;
     removeHeader := spec_removeHeader;
     getContentType := spec_getContentType |}.

End SpecHeaderUtil.

(** The hooks, as the calls that made them. *)
Inductive symbolic_hook :=
  | DigestHook (user pass : jsstring)
  | AwsSignatureHook (authorization : jsstring)
  | AwsCognitoHook (authorization : jsstring).

Definition symbolic_hooks : AuthHooks :=
  {| hook := symbolic_hook;
     digest := DigestHook;
     awsSignature := AwsSignatureHook;
     awsCognito := fun a => Some (AwsCognitoHook a) |}.

Definition no_certificate_files : CertificateFiles :=
  {| certificate_file := fun _ => Returned None |}.

Definition strip_ws (s : jsstring) : jsstring :=
  List.filter (fun c => negb (is_ws c)) s.

(** Modelled from the spec: [MimeUtility.parse] of utils/mimeUtility,
    which is not among the sources; the essence is the media type with
    charset and other parameters stripped, the charset is the declared
    charset parameter. *)
Definition spec_mime_parse (ct : jsstring) : MimeType :=
  let parts := List.map strip_ws (split_on 59 (List.map lower_unit ct)) in
  {| essence := nth 0 parts [];
     charset :=
       option_map (skipn 8)
         (List.find (starts_with (str "charset=")) (tl parts)) |}.

Definition spec_mime : MimeUtility := {| mime_parse := spec_mime_parse |}.

Definition byte_value (b : Byte.byte) : Z := Z.of_N (Byte.to_N b).

(** UTF-8 decoding of one- and two-byte sequences; anything else gives
    the replacement character. *)
Fixpoint utf8_decode (b : list Z) : jsstring :=
  match b with
  | [] => []
  | x :: r =>
      if x <? 128 then x :: utf8_decode r
      else
        match r with
        | y :: r' =>
            if (192 <=? x) && (x <? 224) && (128 <=? y) && (y <? 192)
            then ((x - 192) * 64 + (y - 128)) :: utf8_decode r'
            else 65533 :: utf8_decode r
        | [] => [65533]
        end
  end.

Definition utf8_only : Iconv :=
  {| encodingExists :=
       fun e => jseqb e (str "utf8") || jseqb e (str "utf-8");
     iconv_decode := fun chunk _ => utf8_decode (List.map byte_value chunk);
     buffer_toString := fun chunk => utf8_decode (List.map byte_value chunk) |}.

(** ** Parts of a colon-separated text

    The text before the first colon, and the text after it when there is
    a colon.  For an exclusion entry [host] or [host:port] these give the
    host part and the port part. *)

Definition is_colon (c : Z) : bool := c =? colon.

Definition before_colon (s : jsstring) : jsstring := fst (break_at is_colon s).

Definition after_colon (s : jsstring) : option jsstring :=
  match snd (break_at is_colon s) with
  | [] => None
  | _ :: r => Some r
  end.

Definition entry_host (e : jsstring) : jsstring := before_colon e.

Definition entry_port (e : jsstring) : option jsstring :=
  option_map before_colon (after_colon e).

(** The clone of the request's headers and the store that holds it. *)
Definition cloned (httpRequest : HttpRequest) (s : store) : obj :=
  object_assign [] (default [] (s !! r_headers httpRequest)).

Definition clone_loc (s : store) : loc := fresh (dom s).

(** ** Header sizes, as pairs

    The raw header list of the headers [hs]: each name followed by its
    value. *)

Definition raw_of_headers (hs : list (jsstring * jsstring)) : list jsstring :=
  flat_map (fun nv => [fst nv; snd nv]) hs.

Definition name_value_lengths (hs : list (jsstring * jsstring)) : Z :=
  fold_right (fun nv n => Z.of_nat (length (fst nv)) + Z.of_nat (length (snd nv)) + n)
    0 hs.

(** The size in the words of the specification: the sum of the name and
    value lengths plus half the header count. *)
Definition spec_headersSize (hs : list (jsstring * jsstring)) : Q :=
  (inject_Z (name_value_lengths hs)
   + inject_Z (Z.of_nat (length hs)) / inject_Z 2)%Q.

(** ** Sample data *)

Definition sample_context : SendContext :=
  {| requestUrl := str "http://a.com/x";
     sc_method := str "GET";
     sc_body := None;
     requestHeaderNames := [];
     sc_rawBody := None;
     sc_name := None;
     sc_decodeEscaped := false |}.

Definition response_with (hs : list (jsstring * jsstring)) : IncomingMessage :=
  {| rawHeaders := raw_of_headers hs;
     headers := List.map (fun nv => (List.map lower_unit (fst nv), snd nv)) hs;
     statusCode := 200;
     statusMessage := str "OK";
     httpVersion := str "1.1";
     timings_phases := [];
     request_options_headers := [] |}.

Definition sample_settings : Settings :=
  {| followRedirect := true;
     timeoutInMilliseconds := 0;
     rememberCookiesForSubsequentRequests := false;
     proxy := None;
     excludeHostsForProxy := [];
     proxyStrictSSL := false;
     decodeEscapedUnicode := false;
     hostCertificates := [] |}.

(** A request whose header object is at reference 1. *)
Definition sample_request : HttpRequest :=
  {| r_method := str "GET";
     r_url := str "http://a.com/x";
     r_headers := 1%positive;
     r_body := None;
     r_rawBody := None;
     r_name := None |}.

Definition store_with (hs : obj) : store := {[ 1%positive := hs ]}.

Definition sample_header_util : HeaderUtil := @spec_header_util basic_latin.

Definition has_end (events : list stream_event) : bool :=
  existsb (fun e => match e with End => true | Data _ => false end) events.

Definition one_header : list (jsstring * jsstring) := [(str "A", str "b")].

Definition json_headers : list (jsstring * jsstring) :=
  [(str "Content-Type", str "application/json")].

Definition event_stream_headers : list (jsstring * jsstring) :=
  [(str "Content-Type", str "text/event-stream")].

Definition caf_chunk : Buffer := [Byte.x63; Byte.x61; Byte.x66].

Definition e_acute_chunk : Buffer := [Byte.xc3; Byte.xa9].

(** The client on the small platform. *)
Definition sample_prepareOptions (hs : obj) :=
  @prepareOptions basic_latin simple_url sample_header_util symbolic_hooks
    no_certificate_files sample_request sample_settings (store_with hs).

Definition sample_send (hs : list (jsstring * jsstring))
  (events : list stream_event) : Consumer :=
  @send_response basic_latin sample_header_util spec_mime utf8_only
    sample_context (response_with hs) events.

Definition sample_ignoreProxy : jsstring -> list jsstring -> bool :=
  @ignoreProxy basic_latin simple_url.

(** ** Certificate files on disk ([resolveCertificate])

    The parts of [path], [fs], the workspace and the editor that
    [resolveCertificate] calls. *)

Class Workspace := {
  path_isAbsolute : jsstring -> bool;
  path_join : jsstring -> jsstring -> jsstring;
  path_dirname : jsstring -> jsstring;
  fs_existsSync : jsstring -> bool;
  fs_readFileSync : jsstring -> attempt Buffer;
  uri_fsPath : jsstring -> jsstring;
  getWorkspaceRootPath : option jsstring;
  getCurrentHttpFileName : option jsstring
}.

(** The text of [window.showWarningMessage]. *)
Definition certificate_warning (shown : jsstring) : jsstring :=
  str "Certificate path " ++ shown
  ++ str " doesn't exist, please make sure it exists.".

Section ResolveCertificate.
Context `{Workspace}.

(** The file at [absolutePath] when it exists, which throws when
    [fs.readFileSync] does, and a warning about the configured path
    otherwise.  The result is what is returned and the warnings shown. *)
Definition read_or_warn (absolutePath shown : jsstring)
  : attempt (option Buffer * list jsstring) :=
  if fs_existsSync absolutePath
  then
    match fs_readFileSync absolutePath with
    | Returned bytes => Returned (Some bytes, [])
    | Raised e => Raised e
    end
  else Returned (None, [certificate_warning shown]).

(** [resolveCertificate], with the warnings it shows. *)
Definition resolveCertificate_with_warnings
  (absoluteOrRelativePath : option jsstring)
  : attempt (option Buffer * list jsstring) :=
  match absoluteOrRelativePath with
  | None => Returned (None, [])
  | Some p =>
      if path_isAbsolute p then read_or_warn p p
      else if truthy_opt getWorkspaceRootPath then
        read_or_warn
          (path_join (uri_fsPath (default [] getWorkspaceRootPath)) p) p
      else if negb (truthy_opt getCurrentHttpFileName) then Returned (None, [])
      else
        read_or_warn
          (path_join (path_dirname (default [] getCurrentHttpFileName)) p) p
  end.

(** The files the certificate step of [prepareOptions] sees. *)
Definition workspace_files : CertificateFiles :=
  {| certificate_file :=
       fun p =>
         match resolveCertificate_with_warnings (Some p) with
         | Returned result => Returned (fst result)
         | Raised e => Raised e
         end |}.

End ResolveCertificate.

(** A workspace with the given root, current file and existing files;
    absolute paths start with a slash, and reading a path that ends with
    a slash, a directory, throws. *)
Definition sample_workspace (root current : option jsstring)
  (existing : list jsstring) : Workspace :=
  {| path_isAbsolute := starts_with (str "/");
     path_join := fun a b => a ++ str "/" ++ b;
     path_dirname := fun f => str "/dir";
     fs_existsSync := fun f => existsb (jseqb f) existing;
     fs_readFileSync :=
       fun f =>
         if jseqb (skipn (length f - 1) f) (str "/")
         then Raised FileSystemError else Returned [Byte.x2d];
     uri_fsPath := fun r => r;
     getWorkspaceRootPath := root;
     getCurrentHttpFileName := current |}.

(** ** The exclusion rule in the words of the specification

    Entries and the target host name are compared lower-cased.  For a
    target without a port an entry matches when it is the target host
    name.  For a target with a port an entry is [host] or [host:port],
    cut at its first colon, and matches when its host part is the target
    host name and it has no port or its port is the target port. *)

Section WordedIgnoreProxy.
Context `{JSRuntime} `{NodeUrl}.

Definition worded_entry_matches (hostName port : option jsstring)
  (entry : jsstring) : bool :=
  if negb (truthy_opt port) then strict_eq entry hostName
  else
    strict_eq (before_colon entry) hostName
    && match after_colon entry with
       | None => true
       | Some port_of_entry => strict_eq port_of_entry port
       end.

Definition worded_ignoreProxy (requestUrl : jsstring)
  (excludeHostsForProxy : list jsstring) : bool :=
  let resolvedUrl := url_parse requestUrl in
  existsb
    (worded_entry_matches (option_map toLowerCase (hostname resolvedUrl))
       (port resolvedUrl))
    (List.map toLowerCase excludeHostsForProxy).

End WordedIgnoreProxy.

(** [url.parse] with the reading Node gives of a bracketed IPv6 host:
    the URL [http://[::1]/x] has host [[::1]], host name [::1] and no
    port. *)
Definition bracketed_url_parse (u : jsstring) : Url :=
  if jseqb u (str "http://[::1]/x") then
    {| protocol := Some (str "http:");
       host := Some (str "[::1]");
       hostname := Some (str "::1");
       port := None |}
  else simple_url_parse u.

Definition bracketed_url : NodeUrl := {| url_parse := bracketed_url_parse |}.

(** ** Predicates used by the properties *)

(** Every double quote of [s] comes right after a backslash;
    [after_backslash] tells whether [s] itself does. *)
Fixpoint quotes_escaped_from (after_backslash : bool) (s : jsstring) : bool :=
  match s with
  | [] => true
  | c :: s' =>
      (negb (c =? 34) || after_backslash) && quotes_escaped_from (c =? 92) s'
  end.



(** The chunks among the events of a response, in arrival order. *)
Definition data_chunks (events : list stream_event) : list Buffer :=
  flat_map (fun e => match e with Data chunk => [chunk] | End => [] end) events.

(** Hooks whose [awsCognito] rejects. *)
Definition rejecting_hooks : AuthHooks :=
  {| hook := symbolic_hook;
     digest := DigestHook;
     awsSignature := AwsSignatureHook;
     awsCognito := fun _ => None |}.

Definition sample_host_certificate : HostCertificate :=
  {| hc_cert := Some (str "/ws/cert.pem");
     hc_key := None;
     hc_pfx := None;
     hc_passphrase := Some (str "secret") |}.

(** Settings with a proxy, an excluded host, a timeout, cookies and a
    certificate for [a.com]. *)
Definition proxy_settings : Settings :=
  {| followRedirect := false;
     timeoutInMilliseconds := 5000;
     rememberCookiesForSubsequentRequests := true;
     proxy := Some (str "http://proxy.local:3128");
     excludeHostsForProxy := [str "internal.example.com"];
     proxyStrictSSL := true;
     decodeEscapedUnicode := false;
     hostCertificates := [(str "a.com", sample_host_certificate)] |}.

Definition run_prepareOptions (hooks : AuthHooks) (settings : Settings)
  (hs : obj) :=
  @prepareOptions basic_latin simple_url sample_header_util hooks
    no_certificate_files sample_request settings (store_with hs).

Definition mixed_case_headers : obj :=
  [(str "Content-Type", str "a"); (str "X-Foo", str "b")].

Definition digest_headers : obj :=
  [(str "Authorization", str "Digest alice pass word")].

(** A workspace rooted at [/ws] that holds [/ws/cert.pem]. *)
Definition rooted_workspace : Workspace :=
  sample_workspace (Some (str "/ws")) None [str "/ws/cert.pem"].

(** A workspace rooted at [/ws] where the file is next to the current
    request file only. *)
Definition misplaced_workspace : Workspace :=
  sample_workspace (Some (str "/ws")) (Some (str "/dir/req.http"))
    [str "/dir/cert.pem"].

Definition bare_workspace : Workspace := sample_workspace None None [].

(** A workspace where the configured certificate path is a directory. *)
Definition directory_workspace : Workspace :=
  sample_workspace (Some (str "/ws")) None [str "/ws/certs/"].

Definition directory_host_certificate : HostCertificate :=
  {| hc_cert := Some (str "/ws/certs/");
     hc_key := None;
     hc_pfx := None;
     hc_passphrase := None |}.

Definition directory_settings : Settings :=
  {| followRedirect := true;
     timeoutInMilliseconds := 0;
     rememberCookiesForSubsequentRequests := false;
     proxy := None;
     excludeHostsForProxy := [];
     proxyStrictSSL := false;
     decodeEscapedUnicode := false;
     hostCertificates := [(str "a.com", directory_host_certificate)] |}.

Definition latin1_headers : list (jsstring * jsstring) :=
  [(str "Content-Type", str "text/html; charset=latin1")].

(** * Properties *)

(** ** Strings and objects *)

Lemma jseqb_eq (a b : jsstring) : jseqb a b = true <-> a = b.
Proof.
  revert b; induction a as [|x a IH]; intros [|y b]; simpl; try easy.
  rewrite andb_true_iff, Z.eqb_eq, IH. split.
  - intros [-> ->]; reflexivity.
  - intros [= -> ->]; auto.
Qed.

Lemma jseqb_refl (a : jsstring) : jseqb a a = true.
Proof. apply jseqb_eq; reflexivity. Qed.

Lemma jseqb_neq (a b : jsstring) : jseqb a b = false <-> a <> b.
Proof.
  rewrite <- jseqb_eq. destruct (jseqb a b); split; congruence.
Qed.

Lemma jseqb_sym (a b : jsstring) : jseqb a b = jseqb b a.
Proof.
  destruct (jseqb a b) eqn:E.
  - apply jseqb_eq in E; subst; symmetry; apply jseqb_refl.
  - symmetry; apply jseqb_neq; apply jseqb_neq in E; congruence.
Qed.

Lemma own_get_own_put (k k' v : jsstring) (o : obj) :
  own_get k' (own_put k v o) = if jseqb k' k then Some v else own_get k' o.
Proof.
  induction o as [|[k0 v0] o IH]; simpl.
  - destruct (jseqb k' k); reflexivity.
  - destruct (jseqb k k0) eqn:E; simpl.
    + apply jseqb_eq in E; subst k0.
      destruct (jseqb k' k); reflexivity.
    + rewrite IH. destruct (jseqb k' k0) eqn:E'; [|reflexivity].
      apply jseqb_eq in E'; subst k0.
      rewrite jseqb_sym, E; reflexivity.
Qed.

Lemma inherited_proto : inherited (str "__proto__") = true.
Proof. reflexivity. Qed.

Lemma js_set_not_inherited (k v : jsstring) (o : obj) :
  inherited k = false -> js_set k v o = own_put k v o.
Proof.
  intros Hk; unfold js_set.
  destruct (jseqb k (str "__proto__")) eqn:E; [|reflexivity].
  apply jseqb_eq in E; subst k. rewrite inherited_proto in Hk; discriminate.
Qed.

(** ** Header-name normalisation *)

Section NormalizeHeaderNamesFacts.
Context `{JSRuntime}.

(** The dictionary never gets an own property under the name of a member
    of [Object.prototype]: the [in] test is already true for it. *)
Lemma headersDic_step_own (prev : obj) (cur k : jsstring) :
  own_get k (headersDic_step prev cur) =
    match own_get k prev with
    | Some v => Some v
    | None =>
        if jseqb k (toLowerCase cur) && negb (inherited k) then Some cur
        else None
    end.
Proof.
  unfold headersDic_step, js_in.
  destruct (own_get (toLowerCase cur) prev) as [w|] eqn:Hown.
  - destruct (own_get k prev) eqn:Hk; [reflexivity|].
    destruct (jseqb k (toLowerCase cur)) eqn:E; [|reflexivity].
    apply jseqb_eq in E; subst k; congruence.
  - destruct (inherited (toLowerCase cur)) eqn:Hin.
    + destruct (own_get k prev) eqn:Hk; [reflexivity|].
      destruct (jseqb k (toLowerCase cur)) eqn:E; [|reflexivity].
      apply jseqb_eq in E; subst k. rewrite Hin; reflexivity.
    + rewrite js_set_not_inherited by assumption.
      rewrite own_get_own_put.
      destruct (jseqb k (toLowerCase cur)) eqn:E.
      * apply jseqb_eq in E; subst k. rewrite Hown, Hin; reflexivity.
      * destruct (own_get k prev); reflexivity.
Qed.

Lemma headersDic_fold_own (raw : list jsstring) (prev : obj) (k : jsstring) :
  own_get k (fold_left headersDic_step raw prev) =
    match own_get k prev with
    | Some v => Some v
    | None =>
        if inherited k then None
        else List.find (fun r => jseqb (toLowerCase r) k) raw
    end.
Proof.
  revert prev; induction raw as [|cur raw IH]; intros prev; simpl.
  - destruct (own_get k prev); [reflexivity|]. destruct (inherited k); reflexivity.
  - rewrite IH, headersDic_step_own.
    destruct (own_get k prev); [reflexivity|].
    rewrite (jseqb_sym (toLowerCase cur) k).
    destruct (jseqb k (toLowerCase cur)), (inherited k); reflexivity.
Qed.

Lemma headersDic_own (raw : list jsstring) (k : jsstring) :
  own_get k (headersDic raw) =
    if inherited k then None
    else List.find (fun r => jseqb (toLowerCase r) k) raw.
Proof. unfold headersDic. rewrite headersDic_fold_own. reflexivity. Qed.

(** For a key that is not the name of a member of [Object.prototype],
    the adjusted name is the first raw name whose lower-cased form is the
    key, and the key itself when there is none. *)
Lemma adjustedHeaderName_first_seen (raw : list jsstring) (header : jsstring) :
  inherited header = false ->
  adjustedHeaderName (headersDic raw) header =
    match List.find (fun r => jseqb (toLowerCase r) header) raw with
    | Some r => if truthy r then r else header
    | None => header
    end.
Proof.
  intros Hh. unfold adjustedHeaderName, js_get.
  rewrite headersDic_own, Hh.
  destruct (List.find _ raw); reflexivity.
Qed.

Lemma own_get_js_set (k v n : jsstring) (o : obj) :
  n <> str "__proto__" ->
  own_get n (js_set k v o) = if jseqb n k then Some v else own_get n o.
Proof.
  intros Hn. unfold js_set.
  destruct (jseqb k (str "__proto__")) eqn:E.
  - apply jseqb_eq in E; subst k.
    destruct (jseqb n (str "__proto__")) eqn:E'; [|reflexivity].
    apply jseqb_eq in E'. contradiction.
  - apply own_get_own_put.
Qed.

(** The value stored under a name of the result is the value of the last
    header, in the order of the loop, whose adjusted name it is: values
    are preserved, and of two headers with one adjusted name the later
    one stays. *)
Lemma normalizeHeaderNames_own_get (headers : obj) (raw : list jsstring)
  (n : jsstring) :
  n <> str "__proto__" ->
  own_get n (normalizeHeaderNames headers raw)
  = option_map snd
      (List.find
         (fun kv => jseqb n (adjustedHeaderName (headersDic raw) (fst kv)))
         (rev headers)).
Proof.
  intros Hn. unfold normalizeHeaderNames. cbv zeta.
  induction headers as [|kv headers IH] using rev_ind; [reflexivity|].
  rewrite fold_left_app, rev_app_distr. cbn [fold_left rev app List.find].
  rewrite own_get_js_set by assumption.
  destruct (jseqb n _); [reflexivity|exact IH].
Qed.

(** C9. Claim: every key of the header mapping is renamed to the first raw
    header name whose lower-cased form is the key, and kept when no raw
    name matches.  The code does otherwise for the key [constructor]:
    whatever the raw names are, the dictionary lookup finds the inherited
    [Object.prototype.constructor], and the header is stored under the
    text of that function. *)
Theorem C9_constructor_header_renamed_to_function_text
  (rawHeaders : list jsstring) (v : jsstring) :
  normalizeHeaderNames [(str "constructor", v)] rawHeaders
  = [(str "function Object() { [native code] }", v)].
Proof.
  unfold normalizeHeaderNames, adjustedHeaderName, js_get; simpl.
  rewrite headersDic_own. reflexivity.
Qed.

End NormalizeHeaderNamesFacts.

(** ** Response consumption *)

Lemma rawHeaders_length_sum_concat (raw : list jsstring) :
  rawHeaders_length_sum raw = Z.of_nat (length (concat raw)).
Proof.
  unfold rawHeaders_length_sum.
  assert (G : forall (l : list jsstring) a,
             fold_left Z.add (List.map (fun h => Z.of_nat (length h)) l) a
             = a + Z.of_nat (length (concat l))).
  { induction l as [|h l IH]; intros a; simpl.
    - lia.
    - rewrite IH, length_app. lia. }
  rewrite G. lia.
Qed.

Lemma raw_of_headers_length (hs : list (jsstring * jsstring)) :
  length (raw_of_headers hs) = (2 * length hs)%nat.
Proof. induction hs as [|nv hs IH]; simpl; lia. Qed.

Lemma raw_of_headers_concat (hs : list (jsstring * jsstring)) :
  Z.of_nat (length (concat (raw_of_headers hs))) = name_value_lengths hs.
Proof.
  induction hs as [|nv hs IH]; simpl; [reflexivity|].
  rewrite !length_app. lia.
Qed.

Section SendFacts.
Context `{JSRuntime} `{HeaderUtil} `{MimeUtility} `{Iconv}.
Variable ctx : SendContext.

Lemma consume_snoc (c : Consumer) (events : list stream_event) (e : stream_event) :
  consume ctx c (events ++ [e]) = on_event ctx (consume ctx c events) e.
Proof. unfold consume. rewrite fold_left_app. reflexivity. Qed.

(** The variables of the [response] handler are never assigned again. *)
Lemma consume_handler_locals (c : Consumer) (events : list stream_event) :
  bodyBuffer_local (consume ctx c events) = bodyBuffer_local c
  /\ encoding (consume ctx c events) = encoding c
  /\ end_listener (consume ctx c events) = end_listener c.
Proof.
  revert c; induction events as [|e events IH]; intros c; [easy|].
  change (consume ctx c (e :: events)) with (consume ctx (on_event ctx c e) events).
  destruct (IH (on_event ctx c e)) as (-> & -> & ->).
  destruct e; easy.
Qed.

(** C1. Claim: after each data chunk the accumulated raw buffer is the
    concatenation of all chunks received so far.  The code concatenates
    each chunk with the handler's own [bodyBuffer], which stays empty, so
    after a data chunk the buffer of the result is that chunk alone,
    whatever came before it. *)
Theorem C1_bodyBuffer_holds_last_chunk_only
  (response : IncomingMessage) (events : list stream_event) (chunk : Buffer) :
  bodyBuffer (httpResponse (send_response ctx response (events ++ [Data chunk])))
  = chunk.
Proof.
  unfold send_response. rewrite consume_snoc. simpl.
  destruct (consume_handler_locals (on_response ctx initial_locals response) events)
    as (-> & _). reflexivity.
Qed.

Lemma consume_data (c : Consumer) (chunks : list Buffer) :
  let c' := consume ctx c (List.map Data chunks) in
  bodySize (locals c') = bodySize (locals c) + Z.of_nat (length (concat chunks))
  /\ body (httpResponse c')
     = body (httpResponse c)
       ++ concat (List.map (chunk_text ctx (encoding c)) chunks)
  /\ resolved c' = resolved c
  /\ (bodySizeInBytes (httpResponse c) = bodySize (locals c) ->
      bodySizeInBytes (httpResponse c') = bodySize (locals c')).
Proof.
  revert c; induction chunks as [|chunk chunks IH]; intros c; simpl.
  - repeat split; auto. lia. rewrite app_nil_r; reflexivity.
  - change (consume ctx c (Data chunk :: List.map Data chunks))
      with (consume ctx (on_data ctx chunk c) (List.map Data chunks)).
    destruct (IH (on_data ctx chunk c)) as (E1 & E2 & E3 & E4).
    cbv zeta in *. rewrite E1, E2, E3. simpl.
    repeat split.
    + rewrite length_app. lia.
    + rewrite <- app_assoc. reflexivity.
    + intros _. rewrite E4 by reflexivity. rewrite E1. reflexivity.
Qed.

Lemma send_response_data (response : IncomingMessage) (chunks : list Buffer) :
  let c0 := on_response ctx initial_locals response in
  let c := send_response ctx response (List.map Data chunks) in
  body (httpResponse c) = concat (List.map (chunk_text ctx (encoding c0)) chunks)
  /\ bodySizeInBytes (httpResponse c) = Z.of_nat (length (concat chunks))
  /\ resolved c = resolved c0.
Proof.
  cbv zeta. unfold send_response.
  destruct (consume_data (on_response ctx initial_locals response) chunks)
    as (E1 & E2 & E3 & E4).
  cbv zeta in *. rewrite E2, E3, E4 by reflexivity. rewrite E1.
  repeat split; reflexivity.
Qed.

(** C8. Across the data chunks of one response the decoded body only
    grows at its end, by the text of the new chunk, and [bodySizeInBytes]
    is after every chunk the number of bytes of the chunks handled so far,
    hence never decreases.  For the chunks [caf] and [c3 a9] decoded as
    utf8, the body is [café] and the sizes are 3 and then 5. *)
Theorem C8_body_append_only_and_size_cumulative
  (response : IncomingMessage) (chunks : list Buffer) (chunk : Buffer) :
  let c0 := on_response ctx initial_locals response in
  let before := httpResponse (send_response ctx response (List.map Data chunks)) in
  let after :=
    httpResponse (send_response ctx response (List.map Data (chunks ++ [chunk]))) in
  (body after = body before ++ chunk_text ctx (encoding c0) chunk
   /\ bodySizeInBytes before = Z.of_nat (length (concat chunks))
   /\ bodySizeInBytes after = Z.of_nat (length (concat (chunks ++ [chunk])))
   /\ bodySizeInBytes before <= bodySizeInBytes after)
  /\ (encoding c0 = str "utf8" ->
      encodingExists (str "utf8") = true ->
      iconv_decode [Byte.x63; Byte.x61; Byte.x66] (str "utf8") = str "caf" ->
      iconv_decode [Byte.xc3; Byte.xa9] (str "utf8") = [233] ->
      let caf := Data [Byte.x63; Byte.x61; Byte.x66] in
      let e_acute := Data [Byte.xc3; Byte.xa9] in
      body (httpResponse (send_response ctx response [caf; e_acute]))
      = str "caf" ++ [233]
      /\ bodySizeInBytes (httpResponse (send_response ctx response [caf])) = 3
      /\ bodySizeInBytes (httpResponse (send_response ctx response [caf; e_acute])) = 5).
Proof.
  cbv zeta. split.
  - destruct (send_response_data response chunks) as (B1 & S1 & _).
    destruct (send_response_data response (chunks ++ [chunk])) as (B2 & S2 & _).
    cbv zeta in *. rewrite B1, B2, S1, S2.
    rewrite List.map_app, concat_app, concat_app, length_app. simpl.
    rewrite app_nil_r. repeat split; try reflexivity. lia.
  - intros Henc Hex Hcaf He.
    pose proof (send_response_data response
                  [[Byte.x63; Byte.x61; Byte.x66]; [Byte.xc3; Byte.xa9]]) as (B & S & _).
    pose proof (send_response_data response [[Byte.x63; Byte.x61; Byte.x66]]) as (_ & S1 & _).
    cbv zeta in *. cbn [List.map] in B, S, S1.
    rewrite B, S, S1. cbn [concat]. unfold chunk_text. rewrite Henc, Hex, Hcaf, He.
    repeat split; try reflexivity.
    destruct (sc_decodeEscaped ctx); reflexivity.
Qed.

Lemma consume_resolved (c : Consumer) (events : list stream_event) :
  resolved (consume ctx c events)
  = resolved c || (end_listener c && has_end events).
Proof.
  revert c; induction events as [|e events IH]; intros c.
  - simpl. rewrite andb_false_r, orb_false_r. reflexivity.
  - change (consume ctx c (e :: events)) with (consume ctx (on_event ctx c e) events).
    rewrite IH. destruct e; simpl.
    + reflexivity.
    + destruct (resolved c), (end_listener c); reflexivity.
Qed.

Lemma has_end_In (events : list stream_event) :
  has_end events = true <-> In End events.
Proof.
  unfold has_end. rewrite existsb_exists. split.
  - intros (e & Hin & He). destruct e; [discriminate|assumption].
  - intros Hin. exists End. split; [assumption|reflexivity].
Qed.

Lemma has_end_data (chunks : list Buffer) : has_end (List.map Data chunks) = false.
Proof. induction chunks; simpl; auto. Qed.

Lemma on_response_resolved (response : IncomingMessage) :
  let c0 := on_response ctx initial_locals response in
  (resolved c0 = true <-> response_essence (httpResponse c0) = Some event_stream)
  /\ end_listener c0 = negb (resolved c0).
Proof.
  cbv zeta. split; [|reflexivity].
  change (resolved (on_response ctx initial_locals response))
    with (match response_essence
                  (httpResponse (on_response ctx initial_locals response)) with
          | Some e => jseqb e event_stream
          | None => false
          end).
  destruct (response_essence _) as [x|].
  - rewrite jseqb_eq. split; congruence.
  - split; discriminate.
Qed.

(** C6. The promise of [send] is resolved while only data chunks have
    arrived, before any [end] event, exactly when the essence of the
    response is [text/event-stream]; for any other essence, or none, it
    is resolved exactly when an [end] event has arrived. *)
Theorem C6_resolved_before_end_iff_event_stream (response : IncomingMessage) :
  let essence_of_response :=
    response_essence (httpResponse (on_response ctx initial_locals response)) in
  (forall chunks : list Buffer,
      resolved (send_response ctx response (List.map Data chunks)) = true
      <-> essence_of_response = Some event_stream)
  /\ (essence_of_response <> Some event_stream ->
      forall events : list stream_event,
        resolved (send_response ctx response events) = true <-> In End events).
Proof.
  cbv zeta. destruct (on_response_resolved response) as (Hr & Hl). cbv zeta in *.
  split.
  - intros chunks. unfold send_response.
    rewrite consume_resolved, has_end_data, andb_false_r, orb_false_r. exact Hr.
  - intros Hne events. unfold send_response.
    rewrite consume_resolved, Hl.
    destruct (resolved (on_response ctx initial_locals response)) eqn:E.
    + exfalso. apply Hne, Hr. reflexivity.
    + simpl. apply has_end_In.
Qed.

(** C2, as amended. On the response metadata the header size of the
    result is the sum of the lengths of the raw header names and values
    plus half the number of entries of the raw header list; as that list
    has two entries for each header, this is the sum plus the header
    count, one unit for each header and not half a unit. *)
Theorem C2_headersSize_adds_one_unit_per_header
  (response : IncomingMessage) (hs : list (jsstring * jsstring)) :
  let size := headersSizeInBytes (httpResponse (on_response ctx initial_locals response)) in
  (size == inject_Z (Z.of_nat (length (concat (rawHeaders response))))
           + inject_Z (Z.of_nat (length (rawHeaders response))) / inject_Z 2)%Q
  /\ (rawHeaders response = raw_of_headers hs ->
      (size == inject_Z (name_value_lengths hs + Z.of_nat (length hs)))%Q).
Proof.
  cbv zeta. unfold on_response; cbv beta zeta; simpl headersSizeInBytes.
  rewrite rawHeaders_length_sum_concat. split.
  - rewrite Qplus_0_l. reflexivity.
  - intros ->. rewrite raw_of_headers_concat, raw_of_headers_length.
    rewrite Qplus_0_l, inject_Z_plus.
    apply Qplus_comp; [reflexivity|].
    rewrite Nat2Z.inj_mul, inject_Z_mult. simpl (Z.of_nat 2).
    field.
Qed.

End SendFacts.

(** ** Request preparation *)

Section PrepareOptionsFacts.
Context `{JSRuntime} `{NodeUrl} `{HeaderUtil} `{AuthHooks} `{CertificateFiles}.

(** The certificate and proxy steps leave the headers, the credentials
    and the hooks as the authorization step made them. *)
Lemma applyCertificate_applyProxy_fields
  (httpRequest : HttpRequest) (settings : Settings)
  (c : option Certificate) (o : Options) :
  let o' := applyProxy httpRequest settings (assign_certificate c o) in
  o_headers o' = o_headers o /\ o_username o' = o_username o
  /\ o_password o' = o_password o /\ o_afterResponse o' = o_afterResponse o
  /\ o_beforeRequest o' = o_beforeRequest o.
Proof.
  cbv zeta. unfold applyProxy, assign_certificate.
  destruct c;
    destruct (truthy_opt _ && _); try destruct (jseqb _ _ || _);
    repeat split; reflexivity.
Qed.

Lemma initial_options_fields
  (httpRequest : HttpRequest) (settings : Settings) (l : loc) :
  let o := initial_options httpRequest settings l in
  o_headers o = l /\ o_username o = None /\ o_password o = None
  /\ o_afterResponse o = [] /\ o_beforeRequest o = [].
Proof.
  cbv zeta. unfold initial_options.
  destruct (0 <? _); destruct (rememberCookiesForSubsequentRequests _);
    repeat split; reflexivity.
Qed.

Lemma clone_loc_fresh (s : store) : s !! clone_loc s = None.
Proof.
  unfold clone_loc. apply (not_elem_of_dom (D := gset positive)).
  apply is_fresh.
Qed.

Lemma prepareOptions_unfold (httpRequest : HttpRequest) (settings : Settings)
  (s : store) :
  prepareOptions httpRequest settings s =
    match applyAuthorization
            (initial_options httpRequest settings (clone_loc s))
            (<[clone_loc s := cloned httpRequest s]> s) with
    | Fulfilled o s' =>
        match getRequestCertificate (r_url httpRequest) settings with
        | Returned c =>
            Fulfilled (applyProxy httpRequest settings
                         (assign_certificate c o)) s'
        | Raised e => Thrown e
        end
    | Thrown e => Thrown e
    end.
Proof.
  unfold prepareOptions, bind, read, alloc, applyCertificate, ret, throw.
  fold (clone_loc s). fold (cloned httpRequest s).
  destruct (applyAuthorization _ _) as [o s'|e]; [|reflexivity].
  destruct (getRequestCertificate _ _); reflexivity.
Qed.

Lemma split_ws_truthy (authorization : jsstring) (t1 t2 : jsstring)
  (ts : list jsstring) :
  split_ws authorization = t1 :: t2 :: ts -> truthy authorization = true.
Proof. destruct authorization; [discriminate|reflexivity]. Qed.

(** *** The authorization step, case by case *)


Lemma applyAuthorization_basic_colon (o : Options) (s : store) (h : obj)
  (authorization scheme user : jsstring) :
  s !! o_headers o = Some h ->
  getHeader h (str "Authorization") = Some authorization ->
  split_ws authorization = [scheme; user] ->
  toLowerCase scheme = str "basic" ->
  includes colon user = true ->
  applyAuthorization o s
  = Fulfilled
      (set_credentials (nth_error (split_on colon user) 0)
         (nth_error (split_on colon user) 1) o)
      (<[o_headers o := removeHeader h (str "Authorization")]> s).
Proof.
  intros Hl Hg Hs Hb Hc.
  unfold applyAuthorization, bind, read. rewrite Hl. cbn [from_option id].
  rewrite Hg, (split_ws_truthy _ _ _ _ Hs). cbn [negb].
  rewrite Hs, Hb. rewrite jseqb_refl, Hc.
  unfold removeAuthorization, bind, read, write, ret. rewrite Hl. reflexivity.
Qed.


(** The authorization step keeps the reference of the header object and
    changes the store at that reference only. *)
Lemma applyAuthorization_frame (o o' : Options) (s s' : store) :
  applyAuthorization o s = Fulfilled o' s' ->
  o_headers o' = o_headers o
  /\ forall l : loc, l <> o_headers o -> s' !! l = s !! l.
Proof.
  unfold applyAuthorization, removeAuthorization, bind, read, write, ret, throw.
  intros Hrun.
  repeat match type of Hrun with
         | context [match ?x with _ => _ end] => destruct x
         | context [if ?b then _ else _] => destruct b
         end;
    inversion Hrun; subst; clear Hrun; split; try reflexivity;
    intros ref Hne; try reflexivity;
    apply lookup_insert_ne; congruence.
Qed.

(** C5. When [prepareOptions] returns, the header object of the request
    is as it was: the options refer to another object, a clone made
    before any rewriting, and every object that existed before the call
    is unchanged. *)
Theorem C5_request_headers_unchanged
  (httpRequest : HttpRequest) (settings : Settings) (s s' : store) (o : Options) :
  is_Some (s !! r_headers httpRequest) ->
  prepareOptions httpRequest settings s = Fulfilled o s' ->
  s' !! r_headers httpRequest = s !! r_headers httpRequest
  /\ o_headers o <> r_headers httpRequest
  /\ forall l : loc, is_Some (s !! l) -> s' !! l = s !! l.
Proof.
  intros Hsome Hrun. rewrite prepareOptions_unfold in Hrun.
  destruct (applyAuthorization _ _) as [o1 s1|e] eqn:Hauth; [|discriminate].
  destruct (getRequestCertificate _ _) as [c|e]; [|discriminate].
  inversion Hrun; subst; clear Hrun.
  apply applyAuthorization_frame in Hauth as (Hh & Hframe).
  destruct (initial_options_fields httpRequest settings (clone_loc s)) as (Hi & _).
  cbv zeta in Hi. rewrite Hi in Hh, Hframe.
  destruct (applyCertificate_applyProxy_fields httpRequest settings c o1) as (Hf & _).
  cbv zeta in Hf.
  assert (Hold : forall l : loc, is_Some (s !! l) -> s' !! l = s !! l).
  { intros l Hl.
    assert (l <> clone_loc s).
    { intros ->. rewrite clone_loc_fresh in Hl. destruct Hl; discriminate. }
    rewrite Hframe by assumption. apply lookup_insert_ne; congruence. }
  repeat split.
  - apply Hold; assumption.
  - rewrite Hf, Hh. intros E. rewrite <- E, clone_loc_fresh in Hsome.
    destruct Hsome; discriminate.
  - exact Hold.
Qed.

Lemma prepareOptions_after_authorization
  (httpRequest : HttpRequest) (settings : Settings) (s s1 : store) (o1 : Options)
  (c : option Certificate) :
  getRequestCertificate (r_url httpRequest) settings = Returned c ->
  applyAuthorization (initial_options httpRequest settings (clone_loc s))
    (<[clone_loc s := cloned httpRequest s]> s) = Fulfilled o1 s1 ->
  exists o, prepareOptions httpRequest settings s = Fulfilled o s1
    /\ o_headers o = o_headers o1 /\ o_username o = o_username o1
    /\ o_password o = o_password o1 /\ o_afterResponse o = o_afterResponse o1
    /\ o_beforeRequest o = o_beforeRequest o1.
Proof.
  intros Hcert Hauth. rewrite prepareOptions_unfold, Hauth, Hcert.
  eexists; split; [reflexivity|].
  apply applyCertificate_applyProxy_fields.
Qed.

Lemma initial_options_lookup
  (httpRequest : HttpRequest) (settings : Settings) (s : store) :
  (<[clone_loc s := cloned httpRequest s]> s)
    !! o_headers (initial_options httpRequest settings (clone_loc s))
  = Some (cloned httpRequest s).
Proof.
  destruct (initial_options_fields httpRequest settings (clone_loc s)) as (-> & _).
  apply lookup_insert_eq.
Qed.


(** C3. Claim: for [Basic user:password] the password is the entire
    remainder after the first colon.  The code keeps the second piece of
    [user.split(':')] only: for [Basic alice:sec:ret], when reading the
    certificate files of the host does not throw, [prepareOptions] returns
    options whose username is [alice] and whose password is [sec], not
    [sec:ret]. *)
Theorem C3_basic_password_stops_at_second_colon
  (httpRequest : HttpRequest) (settings : Settings) (s : store)
  (certificate : option Certificate) :
  getHeader (cloned httpRequest s) (str "Authorization")
  = Some (str "Basic alice:sec:ret") ->
  toLowerCase (str "Basic") = str "basic" ->
  getRequestCertificate (r_url httpRequest) settings = Returned certificate ->
  exists o s',
    prepareOptions httpRequest settings s = Fulfilled o s'
    /\ o_username o = Some (str "alice")
    /\ o_password o = Some (str "sec")
    /\ o_password o <> Some (str "sec:ret")
    /\ s' !! o_headers o
       = Some (removeHeader (cloned httpRequest s) (str "Authorization")).
Proof.
  intros Hg Hb Hcert.
  assert (Hs : split_ws (str "Basic alice:sec:ret")
               = [str "Basic"; str "alice:sec:ret"]) by reflexivity.
  assert (Hc : includes colon (str "alice:sec:ret") = true) by reflexivity.
  pose proof (applyAuthorization_basic_colon _ _ _ _ _ _
                (initial_options_lookup httpRequest settings s) Hg Hs Hb Hc) as Hauth.
  destruct (prepareOptions_after_authorization _ _ _ _ _ _ Hcert Hauth)
    as (o & Hrun & Hh & Hu & Hp & _).
  exists o; eexists. split; [exact Hrun|].
  rewrite Hu, Hp, Hh. cbn [set_credentials o_username o_password o_headers].
  repeat split.
  - discriminate.
  - apply lookup_insert_eq.
Qed.


End PrepareOptionsFacts.

(** ** Proxy bypass *)

Lemma split_on_go_break (tok s : jsstring) :
  split_on_go colon tok s
  = (rev tok ++ before_colon s)
    :: match after_colon s with
       | None => []
       | Some r => split_on colon r
       end.
Proof.
  revert tok; induction s as [|c s IH]; intros tok.
  - simpl. rewrite app_nil_r. reflexivity.
  - unfold before_colon, after_colon in *. simpl.
    change (c =? colon) with (is_colon c).
    destruct (is_colon c) eqn:E; simpl.
    + rewrite app_nil_r. reflexivity.
    + rewrite IH. simpl. rewrite <- app_assoc. reflexivity.
Qed.

Lemma split_on_break (s : jsstring) :
  split_on colon s
  = before_colon s
    :: match after_colon s with
       | None => []
       | Some r => split_on colon r
       end.
Proof. unfold split_on at 1. rewrite split_on_go_break. reflexivity. Qed.

Lemma before_colon_whole (s : jsstring) :
  after_colon s = None -> before_colon s = s.
Proof.
  unfold before_colon, after_colon.
  induction s as [|c s IH]; simpl; [reflexivity|].
  destruct (is_colon c); simpl; [discriminate|].
  intros Hs. rewrite IH by assumption. reflexivity.
Qed.

Lemma split_on_first (s : jsstring) : nth 0 (split_on colon s) [] = entry_host s.
Proof. rewrite split_on_break. reflexivity. Qed.

Lemma split_on_second (s : jsstring) :
  nth_error (split_on colon s) 1 = entry_port s.
Proof.
  rewrite split_on_break. unfold entry_port.
  destruct (after_colon s) as [r|]; simpl; [|reflexivity].
  rewrite split_on_break. reflexivity.
Qed.

Lemma split_on_single (s : jsstring) :
  (length (split_on colon s) =? 1)%nat = true <-> after_colon s = None.
Proof.
  rewrite split_on_break. destruct (after_colon s) as [r|]; simpl.
  - rewrite split_on_break. simpl. split; discriminate.
  - split; reflexivity.
Qed.

Lemma strict_eq_true (a : jsstring) (b : option jsstring) :
  strict_eq a b = true <-> b = Some a.
Proof.
  destruct b as [b|]; simpl.
  - rewrite jseqb_eq. split; congruence.
  - split; discriminate.
Qed.

(** An entry lets the loop return when the target has no port. *)
Lemma exclude_entry_matches_without_port (hostName port : option jsstring)
  (eh : jsstring) :
  truthy_opt port = false ->
  exclude_entry_matches hostName port eh = true
  <-> after_colon eh = None /\ hostName = Some eh.
Proof.
  intros Hp. unfold exclude_entry_matches. rewrite Hp. cbn [negb].
  rewrite andb_true_iff, split_on_single, split_on_first, strict_eq_true.
  unfold entry_host. split.
  - intros (Hn & Hh). rewrite before_colon_whole in Hh by assumption. auto.
  - intros (Hn & Hh). rewrite before_colon_whole by assumption. auto.
Qed.

(** An entry lets the loop return when the target has a port. *)
Lemma exclude_entry_matches_with_port (hostName port : option jsstring)
  (eh : jsstring) :
  truthy_opt port = true ->
  exclude_entry_matches hostName port eh = true
  <-> hostName = Some (entry_host eh)
      /\ (truthy_opt (entry_port eh) = false \/ entry_port eh = port).
Proof.
  intros Hp. unfold exclude_entry_matches. rewrite Hp. cbn [negb].
  rewrite andb_true_iff, orb_true_iff, negb_true_iff.
  rewrite split_on_first, split_on_second, !strict_eq_true.
  apply and_iff_compat_l.
  destruct (entry_port eh) as [pp|] eqn:E; simpl.
  - split; (intros [Hf|Hq]; [left; assumption|right; congruence]).
  - split; intros _; left; reflexivity.
Qed.

Lemma ignoreProxy_loop_true (hostName port : option jsstring)
  (excludes : list jsstring) :
  ignoreProxy_loop hostName port excludes = true
  <-> exists eh, In eh excludes /\ exclude_entry_matches hostName port eh = true.
Proof.
  induction excludes as [|eh excludes IH]; simpl.
  - split; [discriminate|]. intros (? & [] & _).
  - destruct (exclude_entry_matches hostName port eh) eqn:E.
    + split; [|reflexivity]. intros _. exists eh. auto.
    + rewrite IH. split.
      * intros (x & Hin & Hm). exists x. auto.
      * intros (x & [->|Hin] & Hm); [congruence|]. exists x. auto.
Qed.

Lemma existsb_jseqb (x : jsstring) (seen : list jsstring) :
  existsb (jseqb x) seen = true <-> In x seen.
Proof.
  rewrite existsb_exists. split.
  - intros (y & Hin & E). apply jseqb_eq in E. subst. assumption.
  - intros Hin. exists x. split; [assumption|apply jseqb_refl].
Qed.

(** Making a set of the entries drops repetitions and nothing else. *)
Lemma set_from_go_In (seen xs : list jsstring) (x : jsstring) :
  In x (set_from_go seen xs) <-> In x xs /\ ~ In x seen.
Proof.
  revert seen; induction xs as [|x0 xs IH]; intros seen; simpl.
  - tauto.
  - destruct (existsb (jseqb x0) seen) eqn:E.
    + apply existsb_jseqb in E. rewrite IH. split.
      * intros (Hin & Hn). auto.
      * intros ([->|Hin] & Hn); [contradiction|auto].
    + assert (Hx0 : ~ In x0 seen).
      { intros Hin. apply existsb_jseqb in Hin. congruence. }
      simpl. rewrite IH. simpl. split.
      * intros [->|(Hin & Hn)]; [auto|]. split; [auto|]. intros Hs. apply Hn; auto.
      * intros ([->|Hin] & Hn); [auto|].
        destruct (jseqb x0 x) eqn:Ex.
        -- apply jseqb_eq in Ex. auto.
        -- apply jseqb_neq in Ex. right. split; [assumption|].
           intros [?|?]; contradiction.
Qed.

Lemma array_from_set_In (xs : list jsstring) (x : jsstring) :
  In x (array_from_set xs) <-> In x xs.
Proof. unfold array_from_set. rewrite set_from_go_In. simpl. tauto. Qed.

Section IgnoreProxyFacts.
Context `{JSRuntime} `{NodeUrl}.

Lemma ignoreProxy_true (requestUrl : jsstring) (excludes : list jsstring) :
  ignoreProxy requestUrl excludes = true
  <-> exists e,
        In e excludes
        /\ exclude_entry_matches
             (option_map toLowerCase (hostname (url_parse requestUrl)))
             (port (url_parse requestUrl)) (toLowerCase e) = true.
Proof.
  unfold ignoreProxy. destruct excludes as [|e0 excludes].
  - split; [discriminate|]. intros (? & [] & _).
  - rewrite ignoreProxy_loop_true. split.
    + intros (eh & Hin & Hm). apply array_from_set_In, in_map_iff in Hin.
      destruct Hin as (e & <- & Hin). exists e. auto.
    + intros (e & Hin & Hm). exists (toLowerCase e). split; [|assumption].
      apply array_from_set_In, in_map_iff. exists e. auto.
Qed.

(** C4, as amended.  [ignoreProxy] is false for an empty exclude list.
    When the target URL has no port it is true exactly when some entry,
    lower-cased, has no colon and is the target host name.  When the
    target URL has a port it is true exactly when for some entry,
    lower-cased, the text before its first colon is the target host name
    and the text between its first and its second colon, or up to its end,
    is missing, empty or the target port.  In particular, with the host names and ports that
    [url.parse] reads from them, [http://internal.example.com/x] is
    excluded by [internal.example.com],
    [http://internal.example.com:8080/x] is not excluded by
    [internal.example.com:9090], and [http://a.com] is not excluded by the
    empty list. *)
Theorem C4_ignoreProxy_matches_host_and_port
  (requestUrl : jsstring) (excludes : list jsstring) :
  let hostName := option_map toLowerCase (hostname (url_parse requestUrl)) in
  let target_port := port (url_parse requestUrl) in
  ignoreProxy requestUrl [] = false
  /\ (truthy_opt target_port = false ->
      (ignoreProxy requestUrl excludes = true
       <-> exists e, In e excludes
             /\ after_colon (toLowerCase e) = None
             /\ hostName = Some (toLowerCase e)))
  /\ (truthy_opt target_port = true ->
      (ignoreProxy requestUrl excludes = true
       <-> exists e, In e excludes
             /\ hostName = Some (entry_host (toLowerCase e))
             /\ (truthy_opt (entry_port (toLowerCase e)) = false
                 \/ entry_port (toLowerCase e) = target_port)))
  /\ (hostname (url_parse (str "http://internal.example.com/x"))
      = Some (str "internal.example.com") ->
      port (url_parse (str "http://internal.example.com/x")) = None ->
      hostname (url_parse (str "http://internal.example.com:8080/x"))
      = Some (str "internal.example.com") ->
      port (url_parse (str "http://internal.example.com:8080/x"))
      = Some (str "8080") ->
      toLowerCase (str "internal.example.com") = str "internal.example.com" ->
      toLowerCase (str "internal.example.com:9090")
      = str "internal.example.com:9090" ->
      ignoreProxy (str "http://internal.example.com/x")
        [str "internal.example.com"] = true
      /\ ignoreProxy (str "http://internal.example.com:8080/x")
           [str "internal.example.com:9090"] = false
      /\ ignoreProxy (str "http://a.com") [] = false).
Proof.
  cbv zeta. split; [reflexivity|]. split; [|split].
  - intros Hp. rewrite ignoreProxy_true. split.
    + intros (e & Hin & Hm).
      apply exclude_entry_matches_without_port in Hm; [|assumption].
      exists e. tauto.
    + intros (e & Hin & Hm). exists e. split; [assumption|].
      apply exclude_entry_matches_without_port; assumption.
  - intros Hp. rewrite ignoreProxy_true. split.
    + intros (e & Hin & Hm).
      apply exclude_entry_matches_with_port in Hm; [|assumption].
      exists e. tauto.
    + intros (e & Hin & Hm). exists e. split; [assumption|].
      apply exclude_entry_matches_with_port; assumption.
  - intros Hh1 Hp1 Hh2 Hp2 Hl1 Hl2. unfold ignoreProxy.
    cbn [List.map]. rewrite Hh1, Hp1, Hh2, Hp2, Hl1, Hl2.
    cbn [option_map]. rewrite Hl1.
    repeat split; reflexivity.
Qed.

End IgnoreProxyFacts.

(** ** Basic credentials in one token *)

Lemma includes_colon_after (s : jsstring) :
  includes colon s = true <-> after_colon s <> None.
Proof.
  unfold includes, after_colon.
  induction s as [|c s IH]; simpl; [split; [discriminate|congruence]|].
  change (c =? colon) with (is_colon c).
  destruct (is_colon c); simpl; [split; [discriminate|reflexivity]|exact IH].
Qed.

Section BasicColonFacts.
Context `{JSRuntime} `{NodeUrl} `{HeaderUtil} `{AuthHooks} `{CertificateFiles}.

(** What the code does for [Basic user:password] in one token: the
    username is the text before the first colon and the password the text
    between the first colon and the next one, or the end. *)
Lemma prepareOptions_basic_colon
  (httpRequest : HttpRequest) (settings : Settings) (s : store)
  (authorization scheme user : jsstring) (certificate : option Certificate) :
  getHeader (cloned httpRequest s) (str "Authorization") = Some authorization ->
  split_ws authorization = [scheme; user] ->
  toLowerCase scheme = str "basic" ->
  includes colon user = true ->
  getRequestCertificate (r_url httpRequest) settings = Returned certificate ->
  exists o s',
    prepareOptions httpRequest settings s = Fulfilled o s'
    /\ o_username o = Some (before_colon user)
    /\ o_password o = option_map before_colon (after_colon user)
    /\ s' !! o_headers o
       = Some (removeHeader (cloned httpRequest s) (str "Authorization")).
Proof.
  intros Hg Hs Hb Hc Hcert.
  pose proof (applyAuthorization_basic_colon _ _ _ _ _ _
                (initial_options_lookup httpRequest settings s) Hg Hs Hb Hc) as Hauth.
  destruct (prepareOptions_after_authorization _ _ _ _ _ _ Hcert Hauth)
    as (o & Hrun & Hh & Hu & Hp & _).
  exists o; eexists. split; [exact Hrun|].
  rewrite Hu, Hp, Hh. cbn [set_credentials o_username o_password o_headers].
  rewrite split_on_second. rewrite split_on_break. cbn [nth_error].
  repeat split. apply lookup_insert_eq.
Qed.

(** When the token has a single colon the password is all that follows
    it. *)
Lemma prepareOptions_basic_single_colon
  (httpRequest : HttpRequest) (settings : Settings) (s : store)
  (authorization scheme user password : jsstring)
  (certificate : option Certificate) :
  getHeader (cloned httpRequest s) (str "Authorization") = Some authorization ->
  split_ws authorization = [scheme; user] ->
  toLowerCase scheme = str "basic" ->
  after_colon user = Some password ->
  after_colon password = None ->
  getRequestCertificate (r_url httpRequest) settings = Returned certificate ->
  exists o s',
    prepareOptions httpRequest settings s = Fulfilled o s'
    /\ o_username o = Some (before_colon user)
    /\ o_password o = Some password.
Proof.
  intros Hg Hs Hb Ha Hn Hcert.
  assert (Hinc : includes colon user = true)
    by (apply includes_colon_after; congruence).
  destruct (prepareOptions_basic_colon httpRequest settings s _ _ _ _
              Hg Hs Hb Hinc Hcert)
    as (o & s' & Hrun & Hu & Hp & _).
  exists o, s'. rewrite Hp, Ha. cbn [option_map].
  rewrite (before_colon_whole password Hn). auto.
Qed.

End BasicColonFacts.

(** * The client on the small platform *)

Example decodeEscapedUnicodeCharacters_letters :
  decodeEscapedUnicodeCharacters (str "a\u0041\U00e9\u12")
  = str "aA" ++ [233] ++ str "\u12".
Proof. reflexivity. Qed.

Example decodeEscapedUnicodeCharacters_quote :
  decodeEscapedUnicodeCharacters (str "\u0022") = [92; 34].
Proof. reflexivity. Qed.


Example normalizeHeaderNames_first_seen_case :
  @normalizeHeaderNames basic_latin
    [(str "content-type", str "a"); (str "x-foo", str "b")]
    [str "Content-Type"; str "X-Foo"; str "CONTENT-TYPE"]
  = [(str "Content-Type", str "a"); (str "X-Foo", str "b")].
Proof. reflexivity. Qed.

Example bodyBuffer_after_two_chunks :
  bodyBuffer (httpResponse (sample_send [] [Data [Byte.x01]; Data [Byte.x02]]))
  = [Byte.x02].
Proof. reflexivity. Qed.

Example event_stream_resolves_at_once :
  resolved (sample_send event_stream_headers []) = true
  /\ resolved (sample_send json_headers [Data caf_chunk]) = false
  /\ resolved (sample_send json_headers [Data caf_chunk; End]) = true.
Proof. repeat split; reflexivity. Qed.

Example basic_alice_secret :
  match sample_prepareOptions [(str "Authorization", str "Basic alice:secret")] with
  | Fulfilled o s' =>
      o_username o = Some (str "alice") /\ o_password o = Some (str "secret")
      /\ s' !! o_headers o = Some []
  | Thrown _ => False
  end.
Proof. vm_compute. repeat split; reflexivity. Qed.

Example basic_without_user_throws :
  sample_prepareOptions [(str "Authorization", str "Basic")] = Thrown TypeError.
Proof. reflexivity. Qed.

(** C2, the claim as stated, fails: for the single header [A: b] the code
    gives 2 + 1 = 3, and the sum plus half the header count is 2 + 1/2. *)
Lemma C2_counterexample_one_header :
  ~ (headersSizeInBytes (httpResponse (sample_send one_header []))
     == spec_headersSize one_header)%Q.
Proof. vm_compute. discriminate. Qed.

Lemma C2_witness_one_header :
  rawHeaders (response_with one_header) = raw_of_headers one_header
  /\ (headersSizeInBytes (httpResponse (sample_send one_header []))
      == inject_Z (name_value_lengths one_header + Z.of_nat (length one_header)))%Q.
Proof.
  split; [reflexivity|].
  apply (proj2 (@C2_headersSize_adds_one_unit_per_header basic_latin
                  sample_header_util spec_mime sample_context
                  (response_with one_header) one_header)).
  reflexivity.
Defined.

Lemma C3_witness_alice_sec_ret :
  exists o s',
    sample_prepareOptions [(str "Authorization", str "Basic alice:sec:ret")]
    = Fulfilled o s'
    /\ o_username o = Some (str "alice")
    /\ o_password o = Some (str "sec")
    /\ o_password o <> Some (str "sec:ret")
    /\ s' !! o_headers o = Some [].
Proof.
  apply (@C3_basic_password_stops_at_second_colon basic_latin simple_url
           sample_header_util symbolic_hooks no_certificate_files
           sample_request sample_settings
           (store_with [(str "Authorization", str "Basic alice:sec:ret")])
           None);
    reflexivity.
Defined.

(** C4, the claim as stated, fails on entries with more than one colon.
    The target [http://[::1]/x] has no port and the host name [::1]; the
    entry [::1] is that host name, yet [ignoreProxy] is false, because the
    entry splits into more than one piece.  The target
    [http://a.com:8080/x] has the port [8080]; the port of the entry
    [a.com:8080:extra] is [8080:extra], not the target port, yet
    [ignoreProxy] is true, because only the piece between the first two
    colons is compared. *)
Lemma C4_counterexample_entries_with_colons :
  (@worded_ignoreProxy basic_latin bracketed_url
     (str "http://[::1]/x") [str "::1"] = true
   /\ @ignoreProxy basic_latin bracketed_url
        (str "http://[::1]/x") [str "::1"] = false)
  /\ (@worded_ignoreProxy basic_latin simple_url
        (str "http://a.com:8080/x") [str "a.com:8080:extra"] = false
      /\ @ignoreProxy basic_latin simple_url
           (str "http://a.com:8080/x") [str "a.com:8080:extra"] = true).
Proof. vm_compute. repeat split; reflexivity. Qed.

Lemma C4_witness_examples :
  sample_ignoreProxy (str "http://internal.example.com/x")
    [str "internal.example.com"] = true
  /\ sample_ignoreProxy (str "http://internal.example.com:8080/x")
       [str "internal.example.com:9090"] = false
  /\ sample_ignoreProxy (str "http://a.com") [] = false.
Proof.
  apply (proj2 (proj2 (proj2
           (@C4_ignoreProxy_matches_host_and_port basic_latin simple_url
              (str "http://a.com") []))));
    reflexivity.
Defined.

Lemma C5_witness_basic_header :
  match sample_prepareOptions [(str "Authorization", str "Basic alice:secret")] with
  | Fulfilled o s' =>
      s' !! 1%positive
      = Some [(str "Authorization", str "Basic alice:secret")]
      /\ o_headers o <> 1%positive
  | Thrown _ => False
  end.
Proof.
  destruct (sample_prepareOptions [(str "Authorization", str "Basic alice:secret")])
    as [o s'|e] eqn:Hrun.
  - destruct (@C5_request_headers_unchanged basic_latin simple_url
                sample_header_util symbolic_hooks no_certificate_files
                sample_request sample_settings
                (store_with [(str "Authorization", str "Basic alice:secret")])
                s' o) as (Hsame & Hne & _).
    + eexists. reflexivity.
    + exact Hrun.
    + split; [|exact Hne]. exact (eq_trans Hsame eq_refl).
  - vm_compute in Hrun. discriminate Hrun.
Defined.

Lemma C6_witness_json :
  resolved (sample_send json_headers [Data caf_chunk; End]) = true
  <-> In End [Data caf_chunk; End].
Proof.
  apply (proj2 (@C6_resolved_before_end_iff_event_stream basic_latin
                  sample_header_util spec_mime utf8_only sample_context
                  (response_with json_headers))).
  vm_compute. discriminate.
Defined.


Lemma C8_witness_cafe :
  body (httpResponse (sample_send [] [Data caf_chunk; Data e_acute_chunk]))
  = str "caf" ++ [233]
  /\ bodySizeInBytes (httpResponse (sample_send [] [Data caf_chunk])) = 3
  /\ bodySizeInBytes
       (httpResponse (sample_send [] [Data caf_chunk; Data e_acute_chunk])) = 5.
Proof.
  apply (proj2 (@C8_body_append_only_and_size_cumulative basic_latin
                  sample_header_util spec_mime utf8_only sample_context
                  (response_with []) [] []));
    reflexivity.
Defined.


(** * Further properties *)

(** ** Escaped unicode characters *)

Lemma decodeEscapedUnicodeCharacters_cons (c : Z) (rest : jsstring) :
  decodeEscapedUnicodeCharacters (c :: rest)
  = match rest with
    | u :: d1 :: d2 :: d3 :: d4 :: rest' =>
        if (c =? 92) && ((u =? 117) || (u =? 85))
           && is_hex d1 && is_hex d2 && is_hex d3 && is_hex d4
        then
          (if parseInt16 d1 d2 d3 d4 =? 34 then [92; 34]
           else [parseInt16 d1 d2 d3 d4])
            ++ decodeEscapedUnicodeCharacters rest'
        else c :: decodeEscapedUnicodeCharacters rest
    | _ => c :: decodeEscapedUnicodeCharacters rest
    end.
Proof. destruct rest as [|? [|? [|? [|? [|? ?]]]]]; reflexivity. Qed.

Lemma decodeEscapedUnicodeCharacters_other (c : Z) (rest : jsstring) :
  c <> 92 ->
  decodeEscapedUnicodeCharacters (c :: rest)
  = c :: decodeEscapedUnicodeCharacters rest.
Proof.
  intros Hc. rewrite decodeEscapedUnicodeCharacters_cons.
  apply Z.eqb_neq in Hc. rewrite Hc.
  destruct rest as [|? [|? [|? [|? [|? ?]]]]]; reflexivity.
Qed.

(** The cases of one step of the replacement, as they matter for
    induction on the length of the body. *)
Lemma decodeEscapedUnicodeCharacters_step (c : Z) (rest : jsstring) :
  decodeEscapedUnicodeCharacters (c :: rest)
  = c :: decodeEscapedUnicodeCharacters rest
  \/ exists u d1 d2 d3 d4 rest',
       rest = u :: d1 :: d2 :: d3 :: d4 :: rest' /\ c = 92
       /\ is_hex d1 = true /\ is_hex d2 = true
       /\ is_hex d3 = true /\ is_hex d4 = true
       /\ decodeEscapedUnicodeCharacters (c :: rest)
          = (if parseInt16 d1 d2 d3 d4 =? 34 then [92; 34]
             else [parseInt16 d1 d2 d3 d4])
            ++ decodeEscapedUnicodeCharacters rest'.
Proof.
  rewrite decodeEscapedUnicodeCharacters_cons.
  destruct rest as [|u [|d1 [|d2 [|d3 [|d4 rest']]]]]; try (left; reflexivity).
  destruct ((c =? 92) && ((u =? 117) || (u =? 85))
            && is_hex d1 && is_hex d2 && is_hex d3 && is_hex d4) eqn:E;
    [|left; reflexivity].
  right. exists u, d1, d2, d3, d4, rest'.
  repeat (apply andb_true_iff in E; destruct E as [E ?]).
  apply Z.eqb_eq in E. repeat split; auto.
Qed.

(** A body without a backslash is left as it is. *)
Theorem decodeEscapedUnicodeCharacters_without_backslash (body : jsstring) :
  ~ In 92 body -> decodeEscapedUnicodeCharacters body = body.
Proof.
  induction body as [|c body IH]; intros Hn; [reflexivity|].
  rewrite decodeEscapedUnicodeCharacters_other.
  - rewrite IH; [reflexivity|]. intros Hin. apply Hn. right. assumption.
  - intros ->. apply Hn. left. reflexivity.
Qed.

Lemma length_induction (P : jsstring -> Prop) :
  (forall s, (forall t, (length t < length s)%nat -> P t) -> P s) ->
  forall s, P s.
Proof.
  intros Hstep s.
  assert (G : forall n t, (length t < n)%nat -> P t).
  { induction n as [|n IHn]; intros t Ht; [lia|].
    apply Hstep. intros t' Ht'. apply IHn. lia. }
  apply (G (S (length s))). lia.
Qed.

(** Decoding never makes the body longer: six code units become one, or
    two for a double quote. *)
Theorem decodeEscapedUnicodeCharacters_length (body : jsstring) :
  (length (decodeEscapedUnicodeCharacters body) <= length body)%nat.
Proof.
  induction body as [body IH] using length_induction.
  destruct body as [|c rest]; [reflexivity|].
  destruct (decodeEscapedUnicodeCharacters_step c rest)
    as [->|(u & d1 & d2 & d3 & d4 & rest' & -> & _ & _ & _ & _ & _ & ->)].
  - cbn [length]. pose proof (IH rest). cbn [length] in *. lia.
  - rewrite length_app. pose proof (IH rest') as Hr. cbn [length] in *.
    assert (length rest' <= length rest')%nat by lia.
    destruct (parseInt16 d1 d2 d3 d4 =? 34); cbn [length]; lia.
Qed.

Lemma quotes_escaped_from_weaken (b : bool) (s : jsstring) :
  quotes_escaped_from false s = true -> quotes_escaped_from b s = true.
Proof.
  destruct s as [|c s]; [reflexivity|]. cbn [quotes_escaped_from].
  rewrite !andb_true_iff, !orb_true_iff. intros ([Hc|Hf] & Hs); [|discriminate].
  auto.
Qed.

(** The decoding brings in no bare double quote: when the body has no
    double quote of its own, every double quote of the result comes right
    after a backslash. *)
Theorem decodeEscapedUnicodeCharacters_quotes_escaped (body : jsstring) :
  ~ In 34 body ->
  quotes_escaped_from false (decodeEscapedUnicodeCharacters body) = true.
Proof.
  induction body as [body IH] using length_induction. intros Hq.
  destruct body as [|c rest]; [reflexivity|].
  assert (Hc : (c =? 34) = false).
  { apply Z.eqb_neq. intros ->. apply Hq. left. reflexivity. }
  assert (Hrest : ~ In 34 rest) by (intros Hin; apply Hq; right; assumption).
  destruct (decodeEscapedUnicodeCharacters_step c rest)
    as [->|(u & d1 & d2 & d3 & d4 & rest' & -> & _ & _ & _ & _ & _ & ->)].
  - cbn [quotes_escaped_from]. rewrite Hc. cbn [negb orb andb].
    apply quotes_escaped_from_weaken, IH; [cbn [length]; lia|assumption].
  - assert (Hr : quotes_escaped_from false (decodeEscapedUnicodeCharacters rest') = true).
    { apply IH; [cbn [length]; lia|].
      intros Hin. apply Hrest. do 5 right. assumption. }
    destruct (parseInt16 d1 d2 d3 d4 =? 34) eqn:E;
      cbn [app quotes_escaped_from]; [|rewrite E]; cbn [negb orb andb Z.eqb];
      try apply quotes_escaped_from_weaken; try exact Hr.
Qed.

(** ** Header-name normalisation, continued *)

Lemma own_get_None (k : jsstring) (o : obj) :
  own_get k o = None <-> ~ In k (List.map fst o).
Proof.
  induction o as [|[k0 v0] o IH]; simpl; [tauto|].
  destruct (jseqb k k0) eqn:E.
  - apply jseqb_eq in E. subst. split; [discriminate|]. intros Hn. exfalso. auto.
  - apply jseqb_neq in E. rewrite IH. split.
    + intros Hn [->|Hin]; [congruence|auto].
    + intros Hn Hin. auto.
Qed.

Lemma own_put_fresh (k v : jsstring) (o : obj) :
  own_get k o = None -> own_put k v o = o ++ [(k, v)].
Proof.
  induction o as [|[k0 v0] o IH]; simpl; [reflexivity|].
  destruct (jseqb k k0); [discriminate|].
  intros Hn. rewrite IH by assumption. reflexivity.
Qed.

Lemma find_first_of_distinct {A : Type} (f : A -> jsstring) (l : list A) (x : A) :
  List.NoDup (List.map f l) -> In x l ->
  List.find (fun y => jseqb (f y) (f x)) l = Some x.
Proof.
  induction l as [|y l IH]; simpl; [tauto|].
  intros Hnd Hin. apply NoDup_cons_iff in Hnd as (Hy & Hnd).
  destruct Hin as [->|Hin].
  - rewrite jseqb_refl. reflexivity.
  - destruct (jseqb (f y) (f x)) eqn:E.
    + apply jseqb_eq in E. exfalso. apply Hy. rewrite E.
      apply in_map. assumption.
    + apply IH; assumption.
Qed.

Lemma fold_js_set_appends (f : jsstring -> jsstring) (g : jsstring * jsstring -> jsstring * jsstring)
  (rest acc : obj) :
  (forall kv, In kv rest ->
     f (fst (g kv)) = fst kv /\ snd (g kv) = snd kv /\ fst kv <> str "__proto__") ->
  List.NoDup (List.map fst (acc ++ rest)) ->
  fold_left (fun adjusted kv => js_set (f (fst kv)) (snd kv) adjusted)
    (List.map g rest) acc
  = acc ++ rest.
Proof.
  revert acc; induction rest as [|[k v] rest IH]; intros acc Hg Hnd; simpl.
  - rewrite app_nil_r. reflexivity.
  - destruct (Hg (k, v)) as (Hf & Hs & Hp); [left; reflexivity|].
    simpl in Hf, Hs, Hp. rewrite Hf, Hs.
    assert (Hk : own_get k acc = None).
    { apply own_get_None. intros Hin.
      rewrite List.map_app in Hnd. apply NoDup_remove_2 in Hnd.
      apply Hnd. apply in_or_app. left. assumption. }
    unfold js_set at 2.
    destruct (jseqb k (str "__proto__")) eqn:E;
      [apply jseqb_eq in E; contradiction|].
    rewrite own_put_fresh by assumption.
    rewrite IH.
    + rewrite <- app_assoc. reflexivity.
    + intros kv Hin. apply Hg. right. assumption.
    + rewrite <- app_assoc. exact Hnd.
Qed.

Section NormalizeHeaderNamesRoundTrip.
Context `{JSRuntime}.

(** Lower-casing the header names and then normalising against the
    original names gives the original headers back, in the original
    order, when no two names have the same lower-cased form, no name is
    empty and no lower-cased name is a member of [Object.prototype]. *)
Theorem normalizeHeaderNames_restores_original_names (hs : obj) :
  List.NoDup (List.map (fun kv => toLowerCase (fst kv)) hs) ->
  (forall kv, In kv hs ->
     inherited (toLowerCase (fst kv)) = false
     /\ truthy (fst kv) = true
     /\ fst kv <> str "__proto__") ->
  normalizeHeaderNames
    (List.map (fun kv => (toLowerCase (fst kv), snd kv)) hs)
    (List.map fst hs)
  = hs.
Proof.
  intros Hnd Hok. unfold normalizeHeaderNames. cbv zeta.
  assert (Hkeys : List.NoDup (List.map fst hs)).
  { rewrite <- (List.map_map fst toLowerCase) in Hnd.
    apply NoDup_map_inv in Hnd. exact Hnd. }
  apply (fold_js_set_appends
           (adjustedHeaderName (headersDic (List.map fst hs)))
           (fun kv => (toLowerCase (fst kv), snd kv)) hs []);
    [|exact Hkeys].
  intros kv Hin. destruct (Hok kv Hin) as (Hi & Ht & Hp).
  cbn [fst snd]. repeat split; [|assumption].
  rewrite adjustedHeaderName_first_seen by assumption.
  rewrite (find_first_of_distinct toLowerCase (List.map fst hs) (fst kv)).
  - rewrite Ht. reflexivity.
  - rewrite List.map_map. exact Hnd.
  - apply in_map. assumption.
Qed.

End NormalizeHeaderNamesRoundTrip.

(** ** Proxy bypass, continued *)

Section IgnoreProxyMore.
Context `{JSRuntime} `{NodeUrl}.

(** Only which entries the exclude list has matters, not their order or
    how often they occur; and a list made of two lists excludes a URL
    exactly when one of the two does, so more entries never turn an
    exclusion off. *)
Theorem ignoreProxy_depends_on_entries_only
  (requestUrl : jsstring) (l1 l2 : list jsstring) :
  ((forall e, In e l1 <-> In e l2) ->
   ignoreProxy requestUrl l1 = ignoreProxy requestUrl l2)
  /\ ignoreProxy requestUrl (l1 ++ l2)
     = ignoreProxy requestUrl l1 || ignoreProxy requestUrl l2.
Proof.
  split.
  - intros Hsame. apply eq_iff_eq_true. rewrite !ignoreProxy_true.
    split; intros (e & Hin & Hm); exists e; (split; [apply Hsame|]); assumption.
  - apply eq_iff_eq_true. rewrite orb_true_iff, !ignoreProxy_true. split.
    + intros (e & Hin & Hm). apply in_app_or in Hin as [Hin|Hin];
        [left|right]; exists e; auto.
    + intros [(e & Hin & Hm)|(e & Hin & Hm)]; exists e;
        (split; [apply in_or_app|]; auto).
Qed.

(** A URL in which [url.parse] finds no host name is excluded by no
    list. *)
Theorem ignoreProxy_without_hostname
  (requestUrl : jsstring) (excludes : list jsstring) :
  hostname (url_parse requestUrl) = None ->
  ignoreProxy requestUrl excludes = false.
Proof.
  intros Hh. destruct (ignoreProxy requestUrl excludes) eqn:E; [|reflexivity].
  apply ignoreProxy_true in E as (e & _ & Hm). rewrite Hh in Hm.
  unfold exclude_entry_matches in Hm. cbn [option_map strict_eq] in Hm.
  destruct (negb (truthy_opt (port (url_parse requestUrl))));
    [rewrite andb_false_r in Hm|]; discriminate.
Qed.

End IgnoreProxyMore.

(** ** Request preparation, continued *)

Lemma split_ws_go_not_nil (tok : jsstring) (in_run : bool) (s : jsstring) :
  split_ws_go tok in_run s <> [].
Proof.
  revert tok in_run; induction s as [|c s IH]; intros tok in_run; simpl.
  - discriminate.
  - destruct (is_ws c); [destruct in_run|]; try apply IH. discriminate.
Qed.

Lemma split_ws_not_nil (s : jsstring) : split_ws s <> [].
Proof. apply split_ws_go_not_nil. Qed.

Section PrepareOptionsMore.
Context `{JSRuntime} `{NodeUrl} `{HeaderUtil} `{AuthHooks} `{CertificateFiles}.

(** The authorization step with the store threaded through. *)
Lemma applyAuthorization_unfold (o : Options) (s : store) (h : obj) :
  s !! o_headers o = Some h ->
  applyAuthorization o s =
    match getHeader h (str "Authorization") with
    | None => Fulfilled o s
    | Some authorization =>
        if negb (truthy authorization) then Fulfilled o s
        else
          match split_ws authorization with
          | [] => Thrown TypeError
          | scheme :: rest =>
              let s2 := <[o_headers o := removeHeader h (str "Authorization")]> s in
              match rest with
              | user :: ((_ :: _) as args) =>
                  if jseqb (toLowerCase scheme) (str "basic") then
                    Fulfilled
                      (set_credentials (Some user)
                         (Some (join (str " ") args)) o) s2
                  else if jseqb (toLowerCase scheme) (str "digest") then
                    Fulfilled
                      (push_afterResponse
                         (digest user (join (str " ") args)) o) s2
                  else if jseqb (toLowerCase scheme) (str "aws") then
                    Fulfilled
                      (push_beforeRequest (awsSignature authorization) o) s2
                  else if jseqb (toLowerCase scheme) (str "cognito") then
                    match awsCognito authorization with
                    | Some h' => Fulfilled (push_beforeRequest h' o) s2
                    | None => Thrown PromiseRejected
                    end
                  else Fulfilled o s
              | _ =>
                  if jseqb (toLowerCase scheme) (str "basic") then
                    match rest with
                    | [] => Thrown TypeError
                    | user :: _ =>
                        if includes colon user then
                          Fulfilled
                            (set_credentials
                               (nth_error (split_on colon user) 0)
                               (nth_error (split_on colon user) 1) o) s2
                        else Fulfilled o s
                    end
                  else Fulfilled o s
              end
          end
    end.
Proof.
  intros Hl.
  unfold applyAuthorization, removeAuthorization, bind, read, write, ret, throw.
  rewrite Hl. cbn [from_option id].
  destruct (getHeader h (str "Authorization")) as [authorization|]; [|reflexivity].
  destruct (negb (truthy authorization)); [reflexivity|].
  destruct (split_ws authorization) as [|scheme [|user [|arg args]]];
    try reflexivity; cbv zeta;
    repeat match goal with
           | |- context [if ?b then _ else _] => destruct b
           | |- context [match awsCognito ?a with _ => _ end] =>
               destruct (awsCognito a)
           end;
    rewrite ?Hl; reflexivity.
Qed.

Lemma prepareOptions_authorization
  (httpRequest : HttpRequest) (settings : Settings) (s : store) :
  applyAuthorization (initial_options httpRequest settings (clone_loc s))
    (<[clone_loc s := cloned httpRequest s]> s)
  = let o := initial_options httpRequest settings (clone_loc s) in
    let s1 := <[clone_loc s := cloned httpRequest s]> s in
    let h := cloned httpRequest s in
    match getHeader h (str "Authorization") with
    | None => Fulfilled o s1
    | Some authorization =>
        if negb (truthy authorization) then Fulfilled o s1
        else
          match split_ws authorization with
          | [] => Thrown TypeError
          | scheme :: rest =>
              let s2 := <[o_headers o := removeHeader h (str "Authorization")]> s1 in
              match rest with
              | user :: ((_ :: _) as args) =>
                  if jseqb (toLowerCase scheme) (str "basic") then
                    Fulfilled
                      (set_credentials (Some user)
                         (Some (join (str " ") args)) o) s2
                  else if jseqb (toLowerCase scheme) (str "digest") then
                    Fulfilled
                      (push_afterResponse
                         (digest user (join (str " ") args)) o) s2
                  else if jseqb (toLowerCase scheme) (str "aws") then
                    Fulfilled
                      (push_beforeRequest (awsSignature authorization) o) s2
                  else if jseqb (toLowerCase scheme) (str "cognito") then
                    match awsCognito authorization with
                    | Some h' => Fulfilled (push_beforeRequest h' o) s2
                    | None => Thrown PromiseRejected
                    end
                  else Fulfilled o s1
              | _ =>
                  if jseqb (toLowerCase scheme) (str "basic") then
                    match rest with
                    | [] => Thrown TypeError
                    | user :: _ =>
                        if includes colon user then
                          Fulfilled
                            (set_credentials
                               (nth_error (split_on colon user) 0)
                               (nth_error (split_on colon user) 1) o) s2
                        else Fulfilled o s1
                    end
                  else Fulfilled o s1
              end
          end
    end.
Proof.
  apply applyAuthorization_unfold. apply initial_options_lookup.
Qed.









End PrepareOptionsMore.

Section PrepareOptionsFailures.
Context `{JSRuntime} `{NodeUrl} `{HeaderUtil} `{AuthHooks} `{CertificateFiles}.

(** When the Authorization value is a single token that lower-cases to
    [basic], [prepareOptions] fails with a [TypeError]: there is no user
    token to look for a colon in. *)
Theorem prepareOptions_basic_alone_throws
  (httpRequest : HttpRequest) (settings : Settings) (s : store)
  (authorization scheme : jsstring) :
  getHeader (cloned httpRequest s) (str "Authorization") = Some authorization ->
  truthy authorization = true ->
  split_ws authorization = [scheme] ->
  toLowerCase scheme = str "basic" ->
  prepareOptions httpRequest settings s = Thrown TypeError.
Proof.
  intros Hg Ht Hs Hb.
  rewrite prepareOptions_unfold, prepareOptions_authorization. cbv zeta.
  rewrite Hg, Ht. cbn [negb]. rewrite Hs, Hb. reflexivity.
Qed.

(** When the scheme lower-cases to [cognito], at least one token follows
    the user token and [awsCognito] rejects, [prepareOptions] is rejected
    too and returns no options. *)
Theorem prepareOptions_cognito_rejection_propagates
  (httpRequest : HttpRequest) (settings : Settings) (s : store)
  (authorization scheme user arg : jsstring) (args : list jsstring) :
  getHeader (cloned httpRequest s) (str "Authorization") = Some authorization ->
  split_ws authorization = scheme :: user :: arg :: args ->
  toLowerCase scheme = str "cognito" ->
  awsCognito authorization = None ->
  prepareOptions httpRequest settings s = Thrown PromiseRejected.
Proof.
  intros Hg Hs Hc Hr.
  rewrite prepareOptions_unfold, prepareOptions_authorization. cbv zeta.
  rewrite Hg, (split_ws_truthy _ _ _ _ Hs). cbn [negb].
  rewrite Hs, Hc, Hr. reflexivity.
Qed.

(** When the certificate file configured for the host of the request URL
    cannot be read, [prepareOptions] returns no options: the read throws
    in [resolveCertificate], nothing catches it, and the call fails.
    Without an Authorization header it fails with what the read threw. *)
Theorem prepareOptions_certificate_failure_propagates
  (httpRequest : HttpRequest) (settings : Settings) (s : store)
  (h : jsstring) (hc : HostCertificate) (path : jsstring) (e : failure) :
  host (url_parse (r_url httpRequest)) = Some h -> truthy h = true ->
  own_get h (hostCertificates settings) = Some hc ->
  hc_cert hc = Some path ->
  certificate_file path = Raised e ->
  (exists e', prepareOptions httpRequest settings s = Thrown e')
  /\ (truthy_opt (getHeader (cloned httpRequest s) (str "Authorization")) = false ->
      prepareOptions httpRequest settings s = Thrown e).
Proof.
  intros Hh Ht Ho Hc Hf.
  assert (Hget : getRequestCertificate (r_url httpRequest) settings = Raised e).
  { unfold getRequestCertificate. rewrite Hh, Ht, Ho. cbn [negb].
    unfold resolveCertificates, resolveCertificate. rewrite Hc, Hf.
    reflexivity. }
  rewrite prepareOptions_unfold, Hget. split.
  - destruct (applyAuthorization _ _) as [o1 s1|e']; eexists; reflexivity.
  - intros Hg. rewrite prepareOptions_authorization. cbv zeta.
    destruct (getHeader _ _) as [a|]; [|reflexivity].
    cbn [truthy_opt] in Hg. rewrite Hg. reflexivity.
Qed.

(** Whatever the Authorization header is, when [prepareOptions] returns
    either nothing was recognised (no credentials, no hooks, the clone
    untouched), or the header was removed from the clone and then either
    a username was set and no hook registered, or exactly one hook was
    registered and no credentials set. *)
Theorem prepareOptions_authorization_outcomes
  (httpRequest : HttpRequest) (settings : Settings) (s s' : store) (o : Options) :
  prepareOptions httpRequest settings s = Fulfilled o s' ->
  (s' !! o_headers o = Some (cloned httpRequest s)
   /\ o_username o = None /\ o_password o = None
   /\ o_afterResponse o = [] /\ o_beforeRequest o = [])
  \/ (s' !! o_headers o
      = Some (removeHeader (cloned httpRequest s) (str "Authorization"))
      /\ ((is_Some (o_username o)
           /\ o_afterResponse o = [] /\ o_beforeRequest o = [])
          \/ (o_username o = None /\ o_password o = None
              /\ length (o_afterResponse o ++ o_beforeRequest o) = 1%nat))).
Proof.
  intros Hrun. rewrite prepareOptions_unfold in Hrun.
  destruct (applyAuthorization _ _) as [o1 s1|e] eqn:Hauth; [|discriminate].
  destruct (getRequestCertificate _ _) as [c|e]; [|discriminate].
  injection Hrun as Ho Hs'. subst o s1.
  destruct (applyCertificate_applyProxy_fields httpRequest settings c o1)
    as (Hh & Hu & Hp & Ha & Hb). cbv zeta in *.
  rewrite Hh, Hu, Hp, Ha, Hb.
  destruct (initial_options_fields httpRequest settings (clone_loc s))
    as (Hi & Hiu & Hip & Hia & Hib). cbv zeta in *.
  rewrite prepareOptions_authorization in Hauth. cbv zeta in Hauth.
  assert (Hsame :
            (<[clone_loc s := cloned httpRequest s]> s)
              !! o_headers (initial_options httpRequest settings (clone_loc s))
            = Some (cloned httpRequest s)) by apply initial_options_lookup.
  repeat match type of Hauth with
         | context [match ?x with _ => _ end] => destruct x
         | context [if ?b then _ else _] => destruct b
         end;
    inversion Hauth; subst o1 s'; clear Hauth;
    first
      [ left; rewrite Hiu, Hip, Hia, Hib; repeat split; exact Hsame
      | right; split; [apply lookup_insert_eq|];
        cbn [set_credentials push_afterResponse push_beforeRequest
             o_username o_password o_afterResponse o_beforeRequest];
        rewrite ?Hiu, ?Hip, ?Hia, ?Hib, ?split_on_break; cbn [nth_error];
        first [ left; repeat split; eexists; reflexivity
              | right; repeat split; reflexivity ] ].
Qed.

End PrepareOptionsFailures.

Section PrepareOptionsPolicy.
Context `{JSRuntime} `{NodeUrl} `{HeaderUtil} `{AuthHooks} `{CertificateFiles}.

(** The authorization step changes the credentials, the hooks and the
    header object only. *)
Lemma applyAuthorization_keeps (o o' : Options) (s s' : store) :
  applyAuthorization o s = Fulfilled o' s' ->
  o_method o' = o_method o /\ o_body o' = o_body o
  /\ o_decompress o' = o_decompress o
  /\ o_followRedirect o' = o_followRedirect o
  /\ o_throwHttpErrors o' = o_throwHttpErrors o
  /\ o_retry o' = o_retry o
  /\ o_rejectUnauthorized o' = o_rejectUnauthorized o
  /\ o_timeout o' = o_timeout o /\ o_cookieJar o' = o_cookieJar o
  /\ o_certificate o' = o_certificate o /\ o_agent o' = o_agent o.
Proof.
  unfold applyAuthorization, removeAuthorization, bind, read, write, ret, throw.
  intros Hrun.
  repeat match type of Hrun with
         | context [match ?x with _ => _ end] => destruct x
         | context [if ?b then _ else _] => destruct b
         end;
    inversion Hrun; subst; clear Hrun; repeat split; reflexivity.
Qed.

(** The certificate and proxy steps change the certificate and the agent
    only. *)
Lemma applyCertificate_applyProxy_keeps
  (httpRequest : HttpRequest) (settings : Settings)
  (c : option Certificate) (o : Options) :
  let o' := applyProxy httpRequest settings (assign_certificate c o) in
  o_method o' = o_method o /\ o_body o' = o_body o
  /\ o_decompress o' = o_decompress o
  /\ o_followRedirect o' = o_followRedirect o
  /\ o_throwHttpErrors o' = o_throwHttpErrors o
  /\ o_retry o' = o_retry o
  /\ o_rejectUnauthorized o' = o_rejectUnauthorized o
  /\ o_timeout o' = o_timeout o /\ o_cookieJar o' = o_cookieJar o.
Proof.
  cbv zeta. unfold applyProxy, assign_certificate.
  destruct c;
    destruct (truthy_opt _ && _); try destruct (jseqb _ _ || _);
    repeat split; reflexivity.
Qed.

Lemma prepareOptions_keeps
  (httpRequest : HttpRequest) (settings : Settings) (s s' : store) (o : Options) :
  prepareOptions httpRequest settings s = Fulfilled o s' ->
  let o0 := initial_options httpRequest settings (clone_loc s) in
  o_method o = o_method o0 /\ o_body o = o_body o0
  /\ o_decompress o = o_decompress o0
  /\ o_followRedirect o = o_followRedirect o0
  /\ o_throwHttpErrors o = o_throwHttpErrors o0
  /\ o_retry o = o_retry o0
  /\ o_rejectUnauthorized o = o_rejectUnauthorized o0
  /\ o_timeout o = o_timeout o0 /\ o_cookieJar o = o_cookieJar o0.
Proof.
  intros Hrun. cbv zeta. rewrite prepareOptions_unfold in Hrun.
  destruct (applyAuthorization _ _) as [o1 s1|e] eqn:Hauth; [|discriminate].
  destruct (getRequestCertificate _ _) as [c|e]; [|discriminate].
  injection Hrun as Ho Hs'. subst o s1.
  apply applyAuthorization_keeps in Hauth
    as (A1 & A2 & A3 & A4 & A5 & A6 & A7 & A8 & A9 & _ & _).
  destruct (applyCertificate_applyProxy_keeps httpRequest settings c o1)
    as (B1 & B2 & B3 & B4 & B5 & B6 & B7 & B8 & B9). cbv zeta in *.
  rewrite B1, B2, B3, B4, B5, B6, B7, B8, B9.
  repeat split; assumption.
Qed.

(** Whatever the request, the settings and the Authorization header, the
    options returned have retries off, do not treat an error status as a
    failure, ask for decompression and do not reject an unauthorized
    server certificate. *)
Theorem prepareOptions_fixed_policy
  (httpRequest : HttpRequest) (settings : Settings) (s s' : store) (o : Options) :
  prepareOptions httpRequest settings s = Fulfilled o s' ->
  o_retry o = 0 /\ o_throwHttpErrors o = false
  /\ o_decompress o = true /\ o_rejectUnauthorized o = false.
Proof.
  intros Hrun. apply prepareOptions_keeps in Hrun
    as (_ & _ & K3 & _ & K5 & K6 & K7 & _ & _). cbv zeta in *.
  rewrite K3, K5, K6, K7. unfold initial_options.
  destruct (0 <? _); destruct (rememberCookiesForSubsequentRequests _);
    repeat split; reflexivity.
Qed.

(** The options take the method of the request and the redirect flag of
    the settings; the body is absent for an empty string, the string
    itself otherwise and the bytes of a stream; the timeout is set only
    when the configured one is positive; a cookie jar is attached exactly
    when cookies are to be remembered. *)
Theorem prepareOptions_follows_request_and_settings
  (httpRequest : HttpRequest) (settings : Settings) (s s' : store) (o : Options) :
  prepareOptions httpRequest settings s = Fulfilled o s' ->
  o_method o = r_method httpRequest
  /\ o_followRedirect o = followRedirect settings
  /\ (r_body httpRequest = Some (BodyString []) -> o_body o = None)
  /\ (forall b, r_body httpRequest = Some (BodyString b) -> b <> [] ->
        o_body o = Some (MString b))
  /\ (forall content, r_body httpRequest = Some (BodyStream content) ->
        o_body o = Some (MBuffer content))
  /\ (r_body httpRequest = None -> o_body o = None)
  /\ (0 < timeoutInMilliseconds settings ->
        o_timeout o = Some (timeoutInMilliseconds settings))
  /\ (timeoutInMilliseconds settings <= 0 -> o_timeout o = None)
  /\ o_cookieJar o = rememberCookiesForSubsequentRequests settings.
Proof.
  intros Hrun. apply prepareOptions_keeps in Hrun
    as (K1 & K2 & _ & K4 & _ & _ & _ & K8 & K9). cbv zeta in *.
  rewrite K1, K2, K4, K8, K9. unfold initial_options.
  destruct (0 <? timeoutInMilliseconds settings) eqn:Et;
    destruct (rememberCookiesForSubsequentRequests settings);
    cbn; repeat split;
    try (intros ->; reflexivity);
    try (intros b -> Hb; destruct b; [contradiction|reflexivity]);
    try (intros content ->; reflexivity);
    try (apply Z.ltb_lt in Et); try (apply Z.ltb_ge in Et);
    intros; try reflexivity; lia.
Qed.

(** [Number(port)] is the value of the digits up to 2^53 and the nearest
    double beyond; a missing and an empty port give 0. *)
Lemma number_of_port_exact (digits : jsstring) :
  forallb (fun c => (48 <=? c) && (c <=? 57)) digits = true ->
  0 <= decimal_value digits < 2 ^ 53 ->
  number_of_port (Some digits) = Finite (decimal_value digits).
Proof.
  intros Hd [Hlo Hhi]. unfold number_of_port. rewrite Hd.
  unfold round_to_double. cbv zeta.
  destruct (Z.eq_dec (decimal_value digits) 0) as [->|Hne]; [reflexivity|].
  assert (Hlog : Z.log2 (decimal_value digits) < 53)
    by (apply Z.log2_lt_pow2; lia).
  destruct (Z.log2 (decimal_value digits) + 1 <=? 53) eqn:E;
    [reflexivity|]. apply Z.leb_gt in E. lia.
Qed.

Example number_of_port_examples :
  number_of_port None = Finite 0
  /\ number_of_port (Some (str "")) = Finite 0
  /\ number_of_port (Some (str "3128")) = Finite 3128
  /\ number_of_port (Some (str "9007199254740993")) = Finite 9007199254740992.
Proof. vm_compute. repeat split; reflexivity. Qed.

(** No agent is set when no proxy is configured, when the URL is
    excluded, or when the protocol of the proxy is neither [http:] nor
    [https:]; otherwise the agent is for the host of the proxy and for
    [Number(port)] of its port, a double: 0 without a port and, for a run
    of decimal digits, the double nearest to its value.  The agent is of
    the plain kind exactly when the request URL starts with [http:], and
    has the strictness of the settings. *)
Theorem prepareOptions_proxy_agent
  (httpRequest : HttpRequest) (settings : Settings) (s s' : store) (o : Options) :
  prepareOptions httpRequest settings s = Fulfilled o s' ->
  let excluded :=
    ignoreProxy (r_url httpRequest) (excludeHostsForProxy settings) in
  let proxyEndpoint := url_parse (default [] (proxy settings)) in
  let usable :=
    match protocol proxyEndpoint with
    | Some p => jseqb p (str "http:") || jseqb p (str "https:")
    | None => false
    end in
  (truthy_opt (proxy settings) = false \/ excluded = true \/ usable = false ->
   o_agent o = None)
  /\ (truthy_opt (proxy settings) = true -> excluded = false -> usable = true ->
      o_agent o
      = Some {| a_for_http := starts_with (str "http:") (r_url httpRequest);
                a_host := hostname proxyEndpoint;
                a_port := number_of_port (port proxyEndpoint);
                a_rejectUnauthorized := proxyStrictSSL settings |}).
Proof.
  intros Hrun. cbv zeta. rewrite prepareOptions_unfold in Hrun.
  destruct (applyAuthorization _ _) as [o1 s1|e] eqn:Hauth; [|discriminate].
  destruct (getRequestCertificate _ _) as [c|e]; [|discriminate].
  injection Hrun as Ho Hs'. subst o s1.
  apply applyAuthorization_keeps in Hauth
    as (_ & _ & _ & _ & _ & _ & _ & _ & _ & _ & Hagent).
  assert (Hnone : o_agent (assign_certificate c o1) = None).
  { unfold assign_certificate. destruct c; cbn;
      rewrite Hagent; unfold initial_options;
      destruct (0 <? _); destruct (rememberCookiesForSubsequentRequests _);
      reflexivity. }
  unfold applyProxy.
  destruct (protocol (url_parse (default [] (proxy settings)))) as [p|];
    cbn [from_option id].
  - split.
    + intros [-> | [-> | ->]]; cbn [andb negb]; rewrite ?andb_false_r;
        try exact Hnone.
      destruct (_ && _); exact Hnone.
    + intros -> -> ->. reflexivity.
  - split.
    + intros _. destruct (_ && _); exact Hnone.
    + intros _ _ Hf. discriminate.
Qed.

(** The certificate of the options returned is decided by the host of the
    request URL alone, whatever the Authorization header.  There is none
    when the URL has no host, and none when the host has no entry of its
    own in [hostCertificates] and is not the name of a member of
    [Object.prototype].  A host without an entry of its own that is such
    a name (as [constructor]) passes the [in] test and gets a certificate
    whose four fields are all undefined.  For a host with an entry the
    three files resolve and the certificate holds their results with the
    passphrase as configured. *)
Theorem prepareOptions_certificate
  (httpRequest : HttpRequest) (settings : Settings) (s s' : store) (o : Options) :
  prepareOptions httpRequest settings s = Fulfilled o s' ->
  let url_host := host (url_parse (r_url httpRequest)) in
  (truthy_opt url_host = false -> o_certificate o = None)
  /\ (forall h, url_host = Some h -> truthy h = true ->
        own_get h (hostCertificates settings) = None -> inherited h = false ->
        o_certificate o = None)
  /\ (forall h, url_host = Some h -> truthy h = true ->
        own_get h (hostCertificates settings) = None -> inherited h = true ->
        o_certificate o
        = Some {| cert := None; key := None; pfx := None;
                  passphrase := None |})
  /\ (forall h hc, url_host = Some h -> truthy h = true ->
        own_get h (hostCertificates settings) = Some hc ->
        exists c k p,
          resolveCertificate (hc_cert hc) = Returned c
          /\ resolveCertificate (hc_key hc) = Returned k
          /\ resolveCertificate (hc_pfx hc) = Returned p
          /\ o_certificate o
             = Some {| cert := c; key := k; pfx := p;
                       passphrase := hc_passphrase hc |}).
Proof.
  intros Hrun. cbv zeta. rewrite prepareOptions_unfold in Hrun.
  destruct (applyAuthorization _ _) as [o1 s1|e] eqn:Hauth; [|discriminate].
  destruct (getRequestCertificate _ _) as [c|e] eqn:Hget; [|discriminate].
  injection Hrun as Ho Hs'. subst o s1.
  apply applyAuthorization_keeps in Hauth
    as (_ & _ & _ & _ & _ & _ & _ & _ & _ & Hcert & _).
  assert (Hinit : o_certificate o1 = None).
  { rewrite Hcert. unfold initial_options.
    destruct (0 <? _); destruct (rememberCookiesForSubsequentRequests _);
      reflexivity. }
  assert (Hproxy : forall o2, o_certificate (applyProxy httpRequest settings o2)
                              = o_certificate o2).
  { intros o2. unfold applyProxy.
    destruct (truthy_opt _ && _); try destruct (jseqb _ _ || _); reflexivity. }
  assert (Hassign : o_certificate (assign_certificate c o1) = c).
  { unfold assign_certificate. destruct c; [reflexivity | exact Hinit]. }
  rewrite Hproxy, Hassign. unfold getRequestCertificate in Hget.
  destruct (host (url_parse (r_url httpRequest))) as [h|].
  - split; [|split; [|split]].
    + cbn [truthy_opt]. intros Ht. rewrite Ht in Hget. cbn in Hget.
      congruence.
    + intros h' [= <-] Ht Ho Hi. rewrite Ht, Ho, Hi in Hget. cbn in Hget.
      congruence.
    + intros h' [= <-] Ht Ho Hi. rewrite Ht, Ho, Hi in Hget.
      unfold resolveCertificates, resolveCertificate in Hget. cbn in Hget.
      congruence.
    + intros h' hc [= <-] Ht Ho. rewrite Ht, Ho in Hget. cbn [negb] in Hget.
      unfold resolveCertificates in Hget.
      destruct (resolveCertificate (hc_cert hc)) as [c0|]; [|discriminate].
      destruct (resolveCertificate (hc_key hc)) as [k0|]; [|discriminate].
      destruct (resolveCertificate (hc_pfx hc)) as [p0|]; [|discriminate].
      exists c0, k0, p0. repeat split. congruence.
  - split; [|split; [|split]]; try discriminate. intros _. congruence.
Qed.

End PrepareOptionsPolicy.

(** ** Response consumption, continued *)

Section SendMore.
Context `{JSRuntime} `{HeaderUtil} `{MimeUtility} `{Iconv}.
Variable ctx : SendContext.

Lemma consume_any (c : Consumer) (events : list stream_event) :
  let c' := consume ctx c events in
  bodySize (locals c')
  = bodySize (locals c) + Z.of_nat (length (concat (data_chunks events)))
  /\ body (httpResponse c')
     = body (httpResponse c)
       ++ concat (List.map (chunk_text ctx (encoding c)) (data_chunks events))
  /\ (bodySizeInBytes (httpResponse c) = bodySize (locals c) ->
      bodySizeInBytes (httpResponse c') = bodySize (locals c'))
  /\ res_statusCode (httpResponse c') = res_statusCode (httpResponse c)
  /\ res_statusMessage (httpResponse c') = res_statusMessage (httpResponse c)
  /\ res_httpVersion (httpResponse c') = res_httpVersion (httpResponse c)
  /\ res_headers (httpResponse c') = res_headers (httpResponse c)
  /\ headersSizeInBytes (httpResponse c') = headersSizeInBytes (httpResponse c)
  /\ timingPhases (httpResponse c') = timingPhases (httpResponse c)
  /\ request (httpResponse c') = request (httpResponse c)
  /\ rawResponse (httpResponse c') = rawResponse (httpResponse c).
Proof.
  revert c; induction events as [|e events IH]; intros c.
  - cbn. rewrite app_nil_r. repeat split; auto. lia.
  - change (consume ctx c (e :: events)) with (consume ctx (on_event ctx c e) events).
    destruct (IH (on_event ctx c e))
      as (E1 & E2 & E3 & E4 & E5 & E6 & E7 & E8 & E9 & E10 & E11).
    cbv zeta in *. destruct e as [chunk|].
    + change (data_chunks (Data chunk :: events)) with (chunk :: data_chunks events).
      split; [|split; [|split]].
      * rewrite E1. cbn [on_event on_data locals bodySize concat].
        rewrite length_app. lia.
      * rewrite E2. cbn [on_event on_data httpResponse body encoding List.map concat].
        rewrite <- app_assoc. reflexivity.
      * intros _. apply E3. reflexivity.
      * rewrite E4, E5, E6, E7, E8, E9, E10, E11. repeat split; reflexivity.
    + change (data_chunks (End :: events)) with (data_chunks events).
      split; [|split; [|split]].
      * rewrite E1. reflexivity.
      * rewrite E2. reflexivity.
      * exact E3.
      * rewrite E4, E5, E6, E7, E8, E9, E10, E11. repeat split; reflexivity.
Qed.

(** For any sequence of data and end events the body is the text of the
    data chunks in arrival order, each decoded with the encoding chosen
    when the response arrived, and [bodySizeInBytes] is the number of
    their bytes: an end event changes neither, and chunks that arrive
    after it are still added. *)
Theorem send_body_of_any_events
  (response : IncomingMessage) (events : list stream_event) :
  let c0 := on_response ctx initial_locals response in
  let r := httpResponse (send_response ctx response events) in
  body r = concat (List.map (chunk_text ctx (encoding c0)) (data_chunks events))
  /\ bodySizeInBytes r = Z.of_nat (length (concat (data_chunks events))).
Proof.
  cbv zeta. unfold send_response.
  destruct (consume_any (on_response ctx initial_locals response) events)
    as (E1 & E2 & E3 & _).
  cbv zeta in *. rewrite E2, E3 by reflexivity. rewrite E1.
  split; reflexivity.
Qed.

(** Data and end events never change what was taken from the response
    metadata: status, version, headers, header size, timings, the echoed
    request and the transport response are as the response handler set
    them. *)
Theorem send_metadata_fixed_at_response
  (response : IncomingMessage) (events : list stream_event) :
  let r0 := httpResponse (on_response ctx initial_locals response) in
  let r := httpResponse (send_response ctx response events) in
  res_statusCode r = statusCode response
  /\ res_statusMessage r = statusMessage response
  /\ res_httpVersion r = httpVersion response
  /\ res_headers r = normalizeHeaderNames (headers response) (rawHeaders response)
  /\ headersSizeInBytes r = headersSizeInBytes r0
  /\ timingPhases r = timings_phases response
  /\ request r = request r0
  /\ rawResponse r = response.
Proof.
  cbv zeta. unfold send_response.
  destruct (consume_any (on_response ctx initial_locals response) events)
    as (_ & _ & _ & E4 & E5 & E6 & E7 & E8 & E9 & E10 & E11).
  cbv zeta in *. rewrite E4, E5, E6, E7, E8, E9, E10, E11.
  repeat split; reflexivity.
Qed.

(** The encoding used for the chunks is never empty: it is the charset
    that [MimeUtility.parse] finds in the content-type header when that
    header and that charset are present and not empty, and [utf8] in
    every other case; no event changes it. *)
Theorem send_encoding_declared_or_utf8
  (response : IncomingMessage) (events : list stream_event) :
  let e := encoding (send_response ctx response events) in
  let declared :=
    match own_get (str "content-type") (headers response) with
    | Some ct => if truthy ct then charset (mime_parse ct) else None
    | None => None
    end in
  truthy e = true
  /\ (truthy_opt declared = false -> e = str "utf8")
  /\ (forall d, declared = Some d -> truthy d = true -> e = d).
Proof.
  cbv zeta. unfold send_response.
  destruct (consume_handler_locals ctx (on_response ctx initial_locals response) events)
    as (_ & -> & _).
  cbn [on_response encoding].
  destruct (match own_get (str "content-type") (headers response) with
            | Some ct => if truthy ct then charset (mime_parse ct) else None
            | None => None
            end) as [d|].
  - cbn [truthy_opt from_option id]. destruct (truthy d) eqn:Ed.
    + split; [exact Ed|split]; [discriminate|].
      intros d' [= <-] _. reflexivity.
    + split; [reflexivity|split]; [reflexivity|].
      intros d' [= <-] Hd. congruence.
  - cbn [truthy_opt]. split; [reflexivity|split]; [reflexivity|discriminate].
Qed.

End SendMore.

(** ** Certificate files *)

Section ResolveCertificateFacts.
Context `{Workspace}.

Lemma read_or_warn_cases (absolutePath shown : jsstring) :
  (fs_existsSync absolutePath = true
   /\ ((exists bytes, fs_readFileSync absolutePath = Returned bytes
                      /\ read_or_warn absolutePath shown
                         = Returned (Some bytes, []))
       \/ (exists e, fs_readFileSync absolutePath = Raised e
                     /\ read_or_warn absolutePath shown = Raised e)))
  \/ (fs_existsSync absolutePath = false
      /\ read_or_warn absolutePath shown
         = Returned (None, [certificate_warning shown])).
Proof.
  unfold read_or_warn. destruct (fs_existsSync absolutePath); [left|right; auto].
  split; [reflexivity|].
  destruct (fs_readFileSync absolutePath) as [bytes|e]; eauto.
Qed.

(** The bytes [resolveCertificate] returns are those of a file that
    exists, and then no warning is shown; when it returns nothing it
    shows at most one warning, and the warning names the path as it was
    configured, not the location it was resolved to; and it throws only
    what reading a file that exists throws. *)
Theorem resolveCertificate_reads_existing_file_or_warns
  (absoluteOrRelativePath : option jsstring) :
  let result := resolveCertificate_with_warnings absoluteOrRelativePath in
  (forall bytes warnings, result = Returned (Some bytes, warnings) ->
     warnings = []
     /\ exists file, fs_existsSync file = true
                     /\ fs_readFileSync file = Returned bytes)
  /\ (forall warnings, result = Returned (None, warnings) ->
      warnings = []
      \/ exists p, absoluteOrRelativePath = Some p
                   /\ warnings = [certificate_warning p])
  /\ (forall e, result = Raised e ->
      exists file, fs_existsSync file = true
                   /\ fs_readFileSync file = Raised e).
Proof.
  cbv zeta. unfold resolveCertificate_with_warnings.
  destruct absoluteOrRelativePath as [p|].
  2:{ split; [|split]; [discriminate| |discriminate].
      intros warnings [= <-]. left. reflexivity. }
  assert (G : forall file,
             (forall bytes warnings,
                read_or_warn file p = Returned (Some bytes, warnings) ->
                warnings = []
                /\ exists f, fs_existsSync f = true
                             /\ fs_readFileSync f = Returned bytes)
             /\ (forall warnings,
                   read_or_warn file p = Returned (None, warnings) ->
                   warnings = []
                   \/ exists p', Some p = Some p'
                                 /\ warnings = [certificate_warning p'])
             /\ (forall e, read_or_warn file p = Raised e ->
                   exists f, fs_existsSync f = true
                             /\ fs_readFileSync f = Raised e)).
  { intros file.
    destruct (read_or_warn_cases file p)
      as [(He & [(b & Hb & ->)|(e & Hr & ->)])|(He & ->)].
    - split; [|split]; [|discriminate|discriminate].
      intros bytes warnings [= <- <-]. split; [reflexivity|].
      exists file. auto.
    - split; [|split]; [discriminate|discriminate|].
      intros e' [= <-]. exists file. auto.
    - split; [|split]; [discriminate| |discriminate].
      intros warnings [= <-]. right. exists p. auto. }
  destruct (path_isAbsolute p); [apply G|].
  destruct (truthy_opt getWorkspaceRootPath); [apply G|].
  destruct (negb (truthy_opt getCurrentHttpFileName)); [|apply G].
  split; [|split]; [discriminate| |discriminate].
  intros warnings [= <-]. left. reflexivity.
Qed.

(** Nothing is returned and nothing is shown for a path that is not
    configured, and for a relative path when there is neither a workspace
    root nor a current file. *)
Theorem resolveCertificate_silent_without_context (p : jsstring) :
  resolveCertificate_with_warnings None = Returned (None, [])
  /\ (path_isAbsolute p = false ->
      truthy_opt getWorkspaceRootPath = false ->
      truthy_opt getCurrentHttpFileName = false ->
      resolveCertificate_with_warnings (Some p) = Returned (None, [])).
Proof.
  split; [reflexivity|]. intros Ha Hr Hc.
  unfold resolveCertificate_with_warnings. rewrite Ha, Hr, Hc. reflexivity.
Qed.

(** With a workspace root, a relative path is looked up under the root
    only: when the file is not there the result is a warning and nothing
    else, wherever the current file is. *)
Theorem resolveCertificate_workspace_root_first (p root : jsstring) :
  path_isAbsolute p = false ->
  getWorkspaceRootPath = Some root -> truthy root = true ->
  fs_existsSync (path_join (uri_fsPath root) p) = false ->
  resolveCertificate_with_warnings (Some p)
  = Returned (None, [certificate_warning p]).
Proof.
  intros Ha Hr Ht He. unfold resolveCertificate_with_warnings, read_or_warn.
  rewrite Ha, Hr. cbn [truthy_opt from_option id]. rewrite Ht, He. reflexivity.
Qed.

(** The certificate step of [prepareOptions], run on these files, gets
    the bytes that [resolveCertificate] returns, and throws when it
    throws. *)
Lemma resolveCertificate_of_workspace (p : option jsstring) :
  @resolveCertificate workspace_files p
  = match resolveCertificate_with_warnings p with
    | Returned result => Returned (fst result)
    | Raised e => Raised e
    end.
Proof. destruct p; reflexivity. Qed.

End ResolveCertificateFacts.

(** ** White space in Basic credentials *)







Section BasicWhitespace.
Context `{JSRuntime} `{NodeUrl} `{HeaderUtil} `{AuthHooks} `{CertificateFiles}.


End BasicWhitespace.

(** * The further properties on the small platform *)

(** The adjusted name of a header key that is not the name of a member
    of [Object.prototype] is the first raw name whose lower-cased form is
    the key, and the key itself when no raw name has that form or the raw
    name is empty. *)
Theorem normalizeHeaderNames_name_is_first_raw_match `{JSRuntime}
  (raw : list jsstring) (header : jsstring) :
  inherited header = false ->
  adjustedHeaderName (headersDic raw) header =
    match List.find (fun r => jseqb (toLowerCase r) header) raw with
    | Some r => if truthy r then r else header
    | None => header
    end.
Proof.
  intros Hh. unfold adjustedHeaderName, js_get.
  rewrite headersDic_own, Hh.
  destruct (List.find _ raw) as [r|]; reflexivity.
Qed.


Lemma decode_without_backslash_witness :
  ~ In 92 (str "plain text")
  /\ decodeEscapedUnicodeCharacters (str "plain text") = str "plain text".
Proof.
  assert (Hn : ~ In 92 (str "plain text")).
  { cbv. intuition discriminate. }
  split; [exact Hn|].
  apply (decodeEscapedUnicodeCharacters_without_backslash (str "plain text") Hn).
Defined.

Lemma decode_quotes_escaped_witness :
  quotes_escaped_from false
    (decodeEscapedUnicodeCharacters (str "say \u0022hi\u0022")) = true.
Proof.
  apply (decodeEscapedUnicodeCharacters_quotes_escaped (str "say \u0022hi\u0022")).
  cbv. intuition discriminate.
Defined.

Lemma first_raw_match_witness :
  adjustedHeaderName
    (@headersDic basic_latin [str "X-Foo"; str "X-FOO"]) (str "x-foo")
  = str "X-Foo".
Proof.
  apply (@normalizeHeaderNames_name_is_first_raw_match basic_latin
           [str "X-Foo"; str "X-FOO"] (str "x-foo")).
  reflexivity.
Defined.

Lemma own_get_witness :
  own_get (str "X-Foo")
    (@normalizeHeaderNames basic_latin
       [(str "x-foo", str "b"); (str "X-Foo", str "c")] [str "X-Foo"])
  = Some (str "c").
Proof.
  apply (@normalizeHeaderNames_own_get basic_latin
           [(str "x-foo", str "b"); (str "X-Foo", str "c")] [str "X-Foo"]
           (str "X-Foo")).
  discriminate.
Defined.

Lemma restores_original_names_witness :
  @normalizeHeaderNames basic_latin
    (List.map (fun kv => (@toLowerCase basic_latin (fst kv), snd kv))
       mixed_case_headers)
    (List.map fst mixed_case_headers)
  = mixed_case_headers.
Proof.
  apply (@normalizeHeaderNames_restores_original_names basic_latin
           mixed_case_headers).
  - repeat constructor; cbv; intuition discriminate.
  - intros kv [<-|[<-|[]]]; repeat split; discriminate.
Defined.

Lemma entries_only_witness :
  sample_ignoreProxy (str "http://a.com/x") [str "b.com"; str "a.com"; str "b.com"]
  = sample_ignoreProxy (str "http://a.com/x") [str "a.com"; str "b.com"].
Proof.
  apply (proj1 (@ignoreProxy_depends_on_entries_only basic_latin simple_url
                  (str "http://a.com/x")
                  [str "b.com"; str "a.com"; str "b.com"]
                  [str "a.com"; str "b.com"])).
  intros e; cbn; tauto.
Defined.

Lemma without_hostname_witness :
  sample_ignoreProxy (str "not a url") [str "not a url"] = false.
Proof.
  apply (@ignoreProxy_without_hostname basic_latin simple_url
           (str "not a url") [str "not a url"]).
  reflexivity.
Defined.








Lemma TypeError_witness :
  run_prepareOptions symbolic_hooks sample_settings
    [(str "Authorization", str "Basic")]
  = Thrown TypeError.
Proof.
  apply (@prepareOptions_basic_alone_throws basic_latin simple_url
           sample_header_util symbolic_hooks no_certificate_files
           sample_request sample_settings
           (store_with [(str "Authorization", str "Basic")])
           (str "Basic") (str "Basic"));
    reflexivity.
Defined.

Lemma rejected_witness :
  run_prepareOptions rejecting_hooks sample_settings
    [(str "Authorization", str "Cognito user pass")]
  = Thrown PromiseRejected.
Proof.
  apply (@prepareOptions_cognito_rejection_propagates basic_latin simple_url
           sample_header_util rejecting_hooks no_certificate_files
           sample_request sample_settings
           (store_with [(str "Authorization", str "Cognito user pass")])
           (str "Cognito user pass") (str "Cognito") (str "user") (str "pass") []);
    reflexivity.
Defined.

Lemma certificate_failure_witness :
  @prepareOptions basic_latin simple_url sample_header_util symbolic_hooks
    (@workspace_files directory_workspace) sample_request directory_settings
    (store_with [(str "Accept", str "*/*")])
  = Thrown FileSystemError.
Proof.
  refine (proj2 (@prepareOptions_certificate_failure_propagates basic_latin
                   simple_url sample_header_util symbolic_hooks
                   (@workspace_files directory_workspace)
                   sample_request directory_settings
                   (store_with [(str "Accept", str "*/*")])
                   (str "a.com") directory_host_certificate
                   (str "/ws/certs/") FileSystemError _ _ _ _ _) _);
    reflexivity.
Defined.

Lemma authorization_outcomes_witness :
  match run_prepareOptions symbolic_hooks proxy_settings digest_headers with
  | Fulfilled o s' =>
      s' !! o_headers o = Some []
      /\ o_username o = None /\ o_password o = None
      /\ length (o_afterResponse o ++ o_beforeRequest o) = 1%nat
  | Thrown _ => False
  end.
Proof.
  destruct (run_prepareOptions symbolic_hooks proxy_settings digest_headers)
    as [o s'|e] eqn:Hrun.
  - destruct (@prepareOptions_authorization_outcomes basic_latin simple_url
                sample_header_util symbolic_hooks no_certificate_files
                sample_request proxy_settings (store_with digest_headers)
                s' o Hrun) as [(_ & _ & _ & Ha & _)|(Hh & Hcase)].
    + vm_compute in Hrun. injection Hrun as <- _. discriminate Ha.
    + destruct Hcase as [((u & Hu) & _)|(Hu & Hp & Hl)].
      * vm_compute in Hrun. injection Hrun as <- _. discriminate Hu.
      * repeat split; assumption.
  - vm_compute in Hrun. discriminate Hrun.
Defined.

Lemma fixed_policy_witness :
  match run_prepareOptions symbolic_hooks proxy_settings digest_headers with
  | Fulfilled o _ =>
      o_retry o = 0 /\ o_throwHttpErrors o = false
      /\ o_decompress o = true /\ o_rejectUnauthorized o = false
  | Thrown _ => False
  end.
Proof.
  destruct (run_prepareOptions symbolic_hooks proxy_settings digest_headers)
    as [o s'|e] eqn:Hrun.
  - exact (@prepareOptions_fixed_policy basic_latin simple_url
             sample_header_util symbolic_hooks no_certificate_files
             sample_request proxy_settings (store_with digest_headers)
             s' o Hrun).
  - vm_compute in Hrun. discriminate Hrun.
Defined.

Lemma follows_request_and_settings_witness :
  match run_prepareOptions symbolic_hooks proxy_settings digest_headers with
  | Fulfilled o _ =>
      o_method o = str "GET" /\ o_followRedirect o = false
      /\ o_body o = None /\ o_timeout o = Some 5000 /\ o_cookieJar o = true
  | Thrown _ => False
  end.
Proof.
  destruct (run_prepareOptions symbolic_hooks proxy_settings digest_headers)
    as [o s'|e] eqn:Hrun.
  - destruct (@prepareOptions_follows_request_and_settings basic_latin simple_url
                sample_header_util symbolic_hooks no_certificate_files
                sample_request proxy_settings (store_with digest_headers)
                s' o Hrun) as (Hm & Hf & _ & _ & _ & Hb & Ht & _ & Hc).
    repeat split; try assumption.
    + apply Hb. reflexivity.
    + apply Ht. reflexivity.
  - vm_compute in Hrun. discriminate Hrun.
Defined.

Lemma proxy_agent_witness :
  match run_prepareOptions symbolic_hooks proxy_settings digest_headers with
  | Fulfilled o _ =>
      o_agent o
      = Some {| a_for_http := true;
                a_host := Some (str "proxy.local");
                a_port := Finite 3128;
                a_rejectUnauthorized := true |}
  | Thrown _ => False
  end.
Proof.
  destruct (run_prepareOptions symbolic_hooks proxy_settings digest_headers)
    as [o s'|e] eqn:Hrun.
  - apply (proj2 (@prepareOptions_proxy_agent basic_latin simple_url
                    sample_header_util symbolic_hooks no_certificate_files
                    sample_request proxy_settings (store_with digest_headers)
                    s' o Hrun)); reflexivity.
  - vm_compute in Hrun. discriminate Hrun.
Defined.

Lemma certificate_witness :
  match @prepareOptions basic_latin simple_url sample_header_util
          symbolic_hooks (@workspace_files rooted_workspace)
          sample_request proxy_settings (store_with digest_headers) with
  | Fulfilled o _ =>
      exists c k p,
        @resolveCertificate (@workspace_files rooted_workspace)
          (hc_cert sample_host_certificate) = Returned c
        /\ @resolveCertificate (@workspace_files rooted_workspace)
             (hc_key sample_host_certificate) = Returned k
        /\ @resolveCertificate (@workspace_files rooted_workspace)
             (hc_pfx sample_host_certificate) = Returned p
        /\ o_certificate o
           = Some {| cert := c; key := k; pfx := p;
                     passphrase := Some (str "secret") |}
  | Thrown _ => False
  end.
Proof.
  destruct (@prepareOptions basic_latin simple_url sample_header_util
              symbolic_hooks (@workspace_files rooted_workspace)
              sample_request proxy_settings (store_with digest_headers))
    as [o s'|e] eqn:Hrun.
  - apply (proj2 (proj2 (proj2
             (@prepareOptions_certificate basic_latin simple_url
                sample_header_util symbolic_hooks
                (@workspace_files rooted_workspace)
                sample_request proxy_settings (store_with digest_headers)
                s' o Hrun))) (str "a.com") sample_host_certificate);
      reflexivity.
  - vm_compute in Hrun. discriminate Hrun.
Defined.

Lemma encoding_witness :
  encoding (sample_send latin1_headers [Data caf_chunk; End]) = str "latin1".
Proof.
  apply (proj2 (proj2 (@send_encoding_declared_or_utf8 basic_latin
                         sample_header_util spec_mime utf8_only sample_context
                         (response_with latin1_headers) [Data caf_chunk; End])));
    reflexivity.
Defined.

Lemma reads_existing_file_witness :
  @nil jsstring = []
  /\ exists file,
       @fs_existsSync rooted_workspace file = true
       /\ @fs_readFileSync rooted_workspace file = Returned [Byte.x2d].
Proof.
  apply (proj1 (@resolveCertificate_reads_existing_file_or_warns rooted_workspace
                  (Some (str "cert.pem"))) [Byte.x2d] []).
  reflexivity.
Defined.

Lemma silent_without_context_witness :
  @resolveCertificate_with_warnings bare_workspace (Some (str "cert.pem"))
  = Returned (None, []).
Proof.
  apply (proj2 (@resolveCertificate_silent_without_context bare_workspace
                  (str "cert.pem")));
    reflexivity.
Defined.

Lemma workspace_root_first_witness :
  @fs_existsSync misplaced_workspace (str "/dir/cert.pem") = true
  /\ @resolveCertificate_with_warnings misplaced_workspace (Some (str "cert.pem"))
     = Returned (None, [certificate_warning (str "cert.pem")]).
Proof.
  split; [reflexivity|].
  apply (@resolveCertificate_workspace_root_first misplaced_workspace
           (str "cert.pem") (str "/ws"));
    reflexivity.
Defined.

